(** * Flow CLI: argument coercion and contract configuration

    A shallow embedding of [pkg/flowkit/arguments.go] (the functions
    [processValue], [GetAuthorizerCount] and [ParseArgumentsWithoutType])
    and of the contract part of the project configuration, with the
    properties the specification states about them. *)

From Stdlib Require Import Ascii DecimalString.
From stdpp Require Import base option list strings gmap fin_maps.

(** ** Go preliminaries *)

(** The double-quote character (code 34). *)
Definition dquote : ascii := Ascii.ascii_of_nat 34.

(** The Go string literal made of one double quote. *)
Definition dquote_string : string := String dquote EmptyString.

(** A Go slice is either [nil] or a (possibly empty) sequence: the two are
    told apart by [== nil] but both have length zero. *)
Definition slice (A : Type) : Type := option (list A).

Definition len {A : Type} (s : slice A) : nat :=
  match s with
  | None => 0
  | Some l => length l
  end.

(** [strings.HasPrefix(s, prefix)]. *)
Definition strings_HasPrefix (s prefix : string) : bool := String.prefix prefix s.

(** [strings.Contains(s, substr)]: [substr] is a prefix of some suffix of [s]. *)
Fixpoint strings_Contains (s substr : string) : bool :=
  String.prefix substr s ||
  match s with
  | EmptyString => false
  | String _ s' => strings_Contains s' substr
  end.

(** [%d] of a non-negative [int]. *)
Definition fmt_d (n : nat) : string := NilZero.string_of_uint (Nat.to_uint n).

(** A Go [error] built by [fmt.Errorf] is its message. *)
Definition error : Type := string.

(** [*strconv.NumError], the error of a failed conversion. *)
Record NumError : Type := {
  Func : string;
  Num : string;
  Err : string
}.

(** [strconv.ParseBool] of the Go standard library: it accepts exactly the
    twelve spellings below, and returns [false] together with a syntax error
    for every other string. *)
Definition strconv_ParseBool (str : string) : bool * option NumError :=
  if bool_decide (str ∈ ["1"; "t"; "T"; "true"; "TRUE"; "True"]) then (true, None)
  else if bool_decide (str ∈ ["0"; "f"; "F"; "false"; "FALSE"; "False"]) then (false, None)
  else (false, Some {| Func := "ParseBool"; Num := str; Err := "invalid syntax" |}).

(** ** [processValue]  (arguments.go, lines 70-79) *)

(** The function returns an [interface{}] holding a string or a bool; the
    error of [strconv.ParseBool] is assigned to the blank identifier. *)
Inductive processed : Type :=
  | ProcessedString (s : string)
  | ProcessedBool (b : bool).

Definition processValue (argType argValue : string) : processed :=
  if String.eqb argType "Address" && negb (strings_Contains argValue "0x") then
    ProcessedString ("0x" +:+ argValue)
  else if String.eqb argType "Bool" then
    let converted := fst (strconv_ParseBool argValue) in
    ProcessedBool converted
  else
    ProcessedString argValue.

(** ** The collaborators: parsed programs and semantic types *)

(** [sema.Type], as far as the engine looks at it: optionals, the simple
    types (package-level singletons of Cadence, told apart by their name),
    the address type, and every other type. *)
Inductive sema_Type : Type :=
  | OptionalType (T : sema_Type)
  | SimpleType (Name : string)
  | AddressType
  | OtherType (Name : string).

(** [sema.StringType]. *)
Definition StringType : sema_Type := SimpleType "String".

Global Instance sema_Type_eq_dec : EqDecision sema_Type.
Proof. solve_decision. Defined.

(** [common.StringLocation]. *)
Definition common_Location : Type := string.
Definition StringLocation (fileName : string) : common_Location := fileName.

(** [ParseArgumentsWithoutType], lines 151-170: the inner [for] loop.  It
    unwraps optionals and rewrites the argument string by the leaf type; it
    yields the string and the type that line 172 hands to
    [runtime.ParseLiteral]. *)
Fixpoint rewriteArgument (semaType : sema_Type) (argumentString : string)
    : string * sema_Type :=
  match semaType with
  | OptionalType T => rewriteArgument T argumentString
  | SimpleType _ =>
      if bool_decide (semaType = StringType) then
        if (0 <? String.length argumentString)
           && negb (strings_HasPrefix argumentString dquote_string)
        then (dquote_string +:+ argumentString +:+ dquote_string, semaType)
        else (argumentString, semaType)
      else (argumentString, semaType)
  | AddressType =>
      if negb (strings_Contains argumentString "0x")
      then ("0x" +:+ argumentString, semaType)
      else (argumentString, semaType)
  | OtherType _ => (argumentString, semaType)
  end.

(** The leaf of a type: what is left once every optional is unwrapped. *)
Fixpoint leafType (semaType : sema_Type) : sema_Type :=
  match semaType with
  | OptionalType T => leafType T
  | _ => semaType
  end.

Section Engine.

(** Types of the Cadence library the engine only passes around. *)
Context {ast_Type cadence_Value Checker Interpreter : Type}.

(** [ast.Parameter]: the identifier and the type of its annotation. *)
Record ast_Parameter : Type := {
  Identifier : string;
  TypeAnnotation_Type : ast_Type
}.

(** [ast.ParameterList]; a [*ast.ParameterList] is an [option]. *)
Record ParameterList : Type := {
  Parameters : slice ast_Parameter
}.

Record FunctionDeclaration : Type := {
  FunctionDeclaration_ParameterList : option ParameterList
}.

Record SpecialFunctionDeclaration : Type := {
  SpecialFunctionDeclaration_FunctionDeclaration : FunctionDeclaration
}.

Record TransactionDeclaration : Type := {
  TransactionDeclaration_ParameterList : option ParameterList;
  Prepare : option SpecialFunctionDeclaration
}.

(** [ast.CompositeDeclaration], seen through [Members.Initializers()]. *)
Record CompositeDeclaration : Type := {
  Members_Initializers : list SpecialFunctionDeclaration
}.

(** What a parsed [*ast.Program] exposes to the engine:
    [sema.FunctionEntryPointDeclaration(program)],
    [program.TransactionDeclarations()] and
    [program.SoleContractDeclaration()]. *)
Record Program : Type := {
  FunctionEntryPointDeclaration : option FunctionDeclaration;
  TransactionDeclarations : list TransactionDeclaration;
  SoleContractDeclaration : option CompositeDeclaration
}.

(** [cmd.PrepareProgram] and [cmd.PrepareChecker]; a parse error ends the
    process inside the collaborator, so a program is always returned.
    [PrepareProgram] stores the code under its location in [codes]. *)
Context (PrepareProgram : list Byte.byte → common_Location → Program).
Context (PrepareChecker :
  Program → common_Location → gmap common_Location (list Byte.byte) → Checker).
Context (ConvertType : Checker → ast_Type → sema_Type).
Context (QualifiedString : sema_Type → string).
(** [interpreter.NewInterpreter(nil, nil, &interpreter.Config{})]. *)
Context (NewInterpreter : Interpreter + error).
(** [runtime.ParseLiteral]. *)
Context (ParseLiteral : string → sema_Type → Interpreter → cadence_Value + error).

(** ** [GetAuthorizerCount]  (arguments.go, lines 81-97) *)

Definition GetAuthorizerCount (fileName : string) (code : list Byte.byte) : nat :=
  let location := StringLocation fileName in
  let program := PrepareProgram code location in
  let transactionDeclaration := TransactionDeclarations program in
  match transactionDeclaration with
  | [td] =>
      match Prepare td with
      | Some prepare =>
          match FunctionDeclaration_ParameterList
                  (SpecialFunctionDeclaration_FunctionDeclaration prepare) with
          | Some parameters => len (Parameters parameters)
          | None => 0
          end
      | None => 0
      end
  | _ => 0
  end.

(** ** [ParseArgumentsWithoutType]  (arguments.go, lines 99-183) *)

(** What a call yields: the two results of a [return], or the run-time
    panic of an index out of range. *)
Inductive outcome : Type :=
  | Return (scriptArgs : slice cadence_Value) (err : option error)
  | Panic.

(** The two [fmt.Errorf] messages. *)
Definition ArgumentCountMismatch (got want : nat) : error :=
  "argument count is " +:+ fmt_d got +:+ ", expected " +:+ fmt_d want.

Definition ArgumentTypeMismatch (identifier expectedType : string) : error :=
  "argument `" +:+ identifier +:+ "` is not expected type `" +:+ expectedType +:+ "`".

(** Lines 108-132: the parameter list is assigned up to three times, each
    assignment replacing the one before. *)
Definition entryPointParameters (program : Program) : slice ast_Parameter :=
  let parameterList : slice ast_Parameter := None in
  let parameterList :=
    match FunctionEntryPointDeclaration program with
    | Some functionDeclaration =>
        match FunctionDeclaration_ParameterList functionDeclaration with
        | Some pl => Parameters pl
        | None => parameterList
        end
    | None => parameterList
    end in
  let parameterList :=
    match TransactionDeclarations program with
    | [td] =>
        match TransactionDeclaration_ParameterList td with
        | Some pl => Parameters pl
        | None => parameterList
        end
    | _ => parameterList
    end in
  let parameterList :=
    match SoleContractDeclaration program with
    | Some contractDeclaration =>
        match Members_Initializers contractDeclaration with
        | [initializer] =>
            match FunctionDeclaration_ParameterList
                    (SpecialFunctionDeclaration_FunctionDeclaration initializer) with
            | Some pl => Parameters pl
            | None => parameterList
            end
        | _ => parameterList
        end
    | None => parameterList
    end in
  parameterList.

(** Lines 147-182: the loop over [args], from position [index] on. *)
Fixpoint coerceFrom (checker : Checker) (inter : Interpreter)
    (parameterList : list ast_Parameter) (index : nat) (args : list string)
    (resultArgs : list cadence_Value) : outcome :=
  match args with
  | [] => Return (Some resultArgs) None
  | argumentString :: args' =>
      match parameterList !! index with
      | None => Panic
      | Some parameter =>
          let astType := TypeAnnotation_Type parameter in
          let semaType := ConvertType checker astType in
          let '(argumentString, semaType) := rewriteArgument semaType argumentString in
          match ParseLiteral argumentString semaType inter with
          | inr _ =>
              Return None
                (Some (ArgumentTypeMismatch (Identifier parameter)
                                            (QualifiedString semaType)))
          | inl value =>
              coerceFrom checker inter parameterList (S index) args'
                         (resultArgs ++ [value])
          end
      end
  end.

(** Lines 134-182: what the function does once [parameterList] is chosen. *)
Definition coerceArguments (checker : Checker) (parameterList : slice ast_Parameter)
    (args : list string) (resultArgs : list cadence_Value) : outcome :=
  match parameterList with
  | None => Return (Some resultArgs) None
  | Some parameterList =>
      if negb (length parameterList =? length args) then
        Return None (Some (ArgumentCountMismatch (length args) (length parameterList)))
      else
        match NewInterpreter with
        | inr err => Return None (Some err)
        | inl inter => coerceFrom checker inter parameterList 0 args resultArgs
        end
  end.

Definition ParseArgumentsWithoutType (fileName : string) (code : list Byte.byte)
    (args : list string) : outcome :=
  let resultArgs : list cadence_Value := [] in
  let location := StringLocation fileName in
  let program := PrepareProgram code location in
  let codes : gmap common_Location (list Byte.byte) := {[ location := code ]} in
  let checker := PrepareChecker program location codes in
  let parameterList := entryPointParameters program in
  coerceArguments checker parameterList args resultArgs.

(** The call of line 172 for one parameter and its raw string: the literal
    parser applied to the rewritten string and the leaf type. *)
Definition parseArgument (checker : Checker) (inter : Interpreter)
    (parameter : ast_Parameter) (argumentString : string) : cadence_Value + error :=
  let semaType := ConvertType checker (TypeAnnotation_Type parameter) in
  ParseLiteral (rewriteArgument semaType argumentString).1
               (rewriteArgument semaType argumentString).2 inter.

End Engine.

(** ** The contract part of the project configuration

    The functions behind [jsonContracts.transformToConfig],
    [transformContractsToJSON], [Contracts.ByName] and
    [Contracts.ByNameAndNetwork] are not among the sources; only their tests
    ([config/json/contract_test.go] and the configuration tests) are. *)

(** [config.Contract], with the fields the tests read. *)
Record Contract : Type := {
  Name : string;
  Location : string;
  Network : string;
  Alias : string
}.

Global Instance Contract_eq_dec : EqDecision Contract.
Proof. solve_decision. Defined.

(** One entry of the persisted [contracts] object: the bare form (a path)
    or the complex form (a source and the aliases by network). *)
Inductive jsonContract : Type :=
  | Simple (path : string)
  | Complex (source : string) (aliases : gmap string string).

Global Instance jsonContract_eq_dec : EqDecision jsonContract.
Proof. solve_decision. Defined.

(** The error kinds of the configuration layer. *)
Inductive config_error : Type :=
  | NotFound
  | InconsistentContractSource.

Section Config.

(** The implicit default network of the project. *)
Context (DefaultNetwork : string).

(** Modelled from the spec: the records one entry of the persisted form
    expands to (section 4.1, Decode).  A bare entry gives one record on the
    default network without alias; a complex entry gives one record per
    alias, each with the shared source as location, or a single record on the
    default network without alias when it has no aliases. *)
Definition decodeEntry (name : string) (entry : jsonContract) : list Contract :=
  match entry with
  | Simple path =>
      [ {| Name := name; Location := path; Network := DefaultNetwork;
           Alias := EmptyString |} ]
  | Complex source aliases =>
      if decide (aliases = ∅) then
        [ {| Name := name; Location := source; Network := DefaultNetwork;
             Alias := EmptyString |} ]
      else
        (λ na : string * string,
           {| Name := name; Location := source; Network := na.1; Alias := na.2 |})
          <$> map_to_list aliases
  end.

(** Modelled from the spec: [jsonContracts.transformToConfig] is missing from
    the sources; this is Decode of section 4.1 over the mapping from names to
    entries.  The entries are of one of the two accepted shapes by their
    type, so the MalformedConfig failure has no case here. *)
Definition transformToConfig (raw : gmap string jsonContract) : list Contract :=
  map_to_list raw ≫= (λ ne, decodeEntry ne.1 ne.2).

(** The names of a collection, each once, and the records of one name. *)
Definition contractNames (contracts : list Contract) : list string :=
  remove_dups (Name <$> contracts).

Definition contractGroup (name : string) (contracts : list Contract) : list Contract :=
  filter (λ c, Name c = name) contracts.

(** The aliases of a group: network to alias, for the records with an alias. *)
Definition groupAliases (group : list Contract) : gmap string string :=
  list_to_map ((λ c, (Network c, Alias c)) <$> filter (λ c, Alias c ≠ EmptyString) group).

(** Modelled from the spec: the entry one group of records is encoded as
    (section 4.1, Encode).  A single record on the default network without
    alias gives the bare form; any other group gives the complex form with
    the shared location as source, and no entry ([None], reported as
    InconsistentContractSource) when the locations of the group differ.  The
    group of a name of the collection is never empty. *)
Definition encodeGroup (group : list Contract) : option jsonContract :=
  match group with
  | [] => None
  | c :: group' =>
      if bool_decide (group' = [] ∧ Network c = DefaultNetwork ∧ Alias c = EmptyString)
      then Some (Simple (Location c))
      else if bool_decide (Forall (λ c', Location c' = Location c) group')
      then Some (Complex (Location c) (groupAliases group))
      else None
  end.

(** Modelled from the spec: [transformContractsToJSON] is missing from the
    sources; this is Encode of section 4.1: the records are grouped by name
    and every group is encoded, or the whole encoding fails.  The tests bind
    the result of the function to a single variable, so the failure of the
    specification is not an error result of the function itself; it is the
    left summand here, and the tests never reach it. *)
Definition transformContractsToJSON (contracts : list Contract)
    : config_error + gmap string jsonContract :=
  match mapM (λ name, pair name <$> encodeGroup (contractGroup name contracts))
             (contractNames contracts) with
  | Some entries => inr (list_to_map entries)
  | None => inl InconsistentContractSource
  end.

(** Modelled from the spec: [Contracts.ByName] is missing from the sources;
    section 4.2 makes it the first record of that name in collection order,
    and NotFound when there is none. *)
Definition ByName (contracts : list Contract) (name : string) : config_error + Contract :=
  match list_find (λ c, Name c = name) contracts with
  | Some (_, c) => inr c
  | None => inl NotFound
  end.

(** Modelled from the spec: [Contracts.ByNameAndNetwork] is missing from the
    sources; section 4.2 makes it the record matching both fields.  Where no
    record matches both, the tests of the repository
    ([Test_ConfigContractsComplex], [Test_ConfigContractsAliases]) call it
    for a name that has records on other networks only and assert that it
    succeeds with a record for the asked network, carrying the location of
    the contract and an empty alias: that branch follows the tests.  A name
    without any record is NotFound, as section 4.2 has it. *)
Definition ByNameAndNetwork (contracts : list Contract) (name network : string)
    : config_error + Contract :=
  match list_find (λ c, Network c = network ∧ Name c = name) contracts with
  | Some (_, c) => inr c
  | None =>
      match ByName contracts name with
      | inr c =>
          inr {| Name := Name c; Location := Location c; Network := network;
                 Alias := EmptyString |}
      | inl err => inl err
      end
  end.

End Config.

(** ** A small instance of the collaborators

    Used to run the engine on concrete inputs: AST types are their semantic
    types, a value is the literal text with its type, and the literal parser
    accepts addresses starting with 0x, quoted strings, and non-empty
    literals of the other types. *)
Module Sample.

Definition value : Type := string * sema_Type.

Definition prepareProgram (program : @Program sema_Type)
    : list Byte.byte → common_Location → @Program sema_Type :=
  λ _ _, program.

Definition prepareChecker
    : @Program sema_Type → common_Location → gmap common_Location (list Byte.byte) → unit :=
  λ _ _ _, tt.

Definition convertType : unit → sema_Type → sema_Type := λ _ t, t.

Fixpoint qualifiedString (t : sema_Type) : string :=
  match t with
  | OptionalType T => qualifiedString T +:+ "?"
  | SimpleType n => n
  | AddressType => "Address"
  | OtherType n => n
  end.

Definition newInterpreter : unit + error := inl tt.

Definition parseLiteral (s : string) (t : sema_Type) (_ : unit) : value + error :=
  match t with
  | AddressType =>
      if strings_HasPrefix s "0x" then inl (s, t) else inr "invalid address literal"
  | SimpleType _ =>
      if bool_decide (t = StringType) && negb (strings_HasPrefix s dquote_string)
      then inr "invalid string literal" else inl (s, t)
  | _ =>
      if bool_decide (s = EmptyString) then inr "unexpected end of input" else inl (s, t)
  end.

Definition parameter (identifier : string) (t : sema_Type) : @ast_Parameter sema_Type :=
  {| Identifier := identifier; TypeAnnotation_Type := t |}.

(** A program with no declaration the engine looks for. *)
Definition noEntryPoint : @Program sema_Type :=
  {| FunctionEntryPointDeclaration := None;
     TransactionDeclarations := [];
     SoleContractDeclaration := None |}.

(** A script whose [main] has the given parameters. *)
Definition script (parameters : slice (@ast_Parameter sema_Type)) : @Program sema_Type :=
  {| FunctionEntryPointDeclaration :=
       Some {| FunctionDeclaration_ParameterList := Some {| Parameters := parameters |} |};
     TransactionDeclarations := [];
     SoleContractDeclaration := None |}.

Definition function (parameters : slice (@ast_Parameter sema_Type))
    : @FunctionDeclaration sema_Type :=
  {| FunctionDeclaration_ParameterList := Some {| Parameters := parameters |} |}.

(** A transaction with top-level parameters and a prepare block. *)
Definition transaction (parameters prepare : slice (@ast_Parameter sema_Type))
    : @TransactionDeclaration sema_Type :=
  {| TransactionDeclaration_ParameterList := Some {| Parameters := parameters |};
     Prepare := Some {| SpecialFunctionDeclaration_FunctionDeclaration := function prepare |} |}.

(** A file with a [main], one transaction and one contract initializer. *)
Definition everything : @Program sema_Type :=
  {| FunctionEntryPointDeclaration := Some (function (Some [parameter "f" AddressType]));
     TransactionDeclarations :=
       [transaction (Some [parameter "t" StringType])
                    (Some [parameter "signer" (OtherType "AuthAccount")])];
     SoleContractDeclaration :=
       Some {| Members_Initializers :=
                 [ {| SpecialFunctionDeclaration_FunctionDeclaration :=
                        function (Some [parameter "c1" (OtherType "Int");
                                        parameter "c2" (OtherType "Int")]) |} ] |} |}.

(** The engine on a given parsed program. *)
Definition run (program : @Program sema_Type) (args : list string) : @outcome value :=
  ParseArgumentsWithoutType (prepareProgram program) prepareChecker convertType
    qualifiedString newInterpreter parseLiteral "file.cdc" [] args.

End Sample.

(** ** The candidate entry points of a program *)

Section Candidates.

Context {ast_Type : Type}.

(** A function entry point with a parameter list. *)
Definition functionCandidate (program : @Program ast_Type)
    (pl : @ParameterList ast_Type) : Prop :=
  ∃ functionDeclaration,
    FunctionEntryPointDeclaration program = Some functionDeclaration
    ∧ FunctionDeclaration_ParameterList functionDeclaration = Some pl.

(** A single transaction declaration with a top-level parameter list. *)
Definition transactionCandidate (program : @Program ast_Type)
    (pl : @ParameterList ast_Type) : Prop :=
  ∃ td,
    TransactionDeclarations program = [td]
    ∧ TransactionDeclaration_ParameterList td = Some pl.

(** A sole contract declaration with exactly one initializer (and its
    parameter list). *)
Definition contractCandidate (program : @Program ast_Type)
    (pl : @ParameterList ast_Type) : Prop :=
  ∃ contractDeclaration initializer,
    SoleContractDeclaration program = Some contractDeclaration
    ∧ Members_Initializers contractDeclaration = [initializer]
    ∧ FunctionDeclaration_ParameterList
        (SpecialFunctionDeclaration_FunctionDeclaration initializer) = Some pl.

End Candidates.

(** ** The configurations of the tests

    The persisted forms that [config/json/contract_test.go] decodes, with
    emulator as the default network, and the way a test reads one field of a
    lookup that must not fail. *)
Module SampleConfig.

Definition defaultNetwork : string := "emulator".

(** [Test_ConfigContractsSimple]. *)
Definition simple : gmap string jsonContract :=
  {[ "KittyItems" := Simple "./cadence/kittyItems/contracts/KittyItems.cdc";
     "KittyItemsMarket" := Simple "./cadence/kittyItems/contracts/KittyItemsMarket.cdc" ]}.

(** [Test_ConfigContractsComplex]. *)
Definition complex : gmap string jsonContract :=
  {[ "KittyItems" := Simple "./cadence/kittyItems/contracts/KittyItems.cdc";
     "KittyItemsMarket" :=
       Complex "./cadence/kittyItemsMarket/contracts/KittyItemsMarket.cdc"
               {[ "testnet" := "f8d6e0586b0a20c7" ]} ]}.

(** [Test_ConfigContractsAliases]. *)
Definition aliased : gmap string jsonContract :=
  {[ "NonFungibleToken" := Simple "../hungry-kitties/cadence/contracts/NonFungibleToken.cdc";
     "Kibble" :=
       Complex "../hungry-kitties/cadence/contracts/Kibble.cdc"
               {[ "emulator" := "f8d6e0586b0a20c7"; "testnet" := "ead892083b3e2c6c" ]};
     "FungibleToken" :=
       Complex "../hungry-kitties/cadence/contracts/FungibleToken.cdc"
               {[ "emulator" := "e5a8b7f23e8b548f" ]} ]}.

(** [Test_TransformContractToJSON]. *)
Definition market : gmap string jsonContract :=
  {[ "KittyItems" := Simple "./cadence/kittyItems/contracts/KittyItems.cdc";
     "KittyItemsMarket" :=
       Complex "./cadence/kittyItemsMarket/contracts/KittyItemsMarket.cdc"
               {[ "testnet" := "e5a8b7f23e8b548f" ]} ]}.

(** [Test_TransformComplexContractToJSON]. *)
Definition kibble : gmap string jsonContract :=
  {[ "KittyItems" := Simple "./cadence/kittyItems/contracts/KittyItems.cdc";
     "KittyItemsMarket" :=
       Complex "./cadence/kittyItemsMarket/contracts/KittyItemsMarket.cdc"
               {[ "testnet" := "e5a8b7f23e8b548f" ]};
     "Kibble" :=
       Complex "./cadence/kittyItems/contracts/KittyItems.cdc"
               {[ "testnet" := "e5a8b7f23e8b548f"; "emulator" := "f8d6e0586b0a20c7" ]} ]}.

(** The scenario of the specification: KittyItemsMarket in the complex form
    with the alias 0x123123123 on testnet. *)
Definition scenario : gmap string jsonContract :=
  {[ "KittyItemsMarket" :=
       Complex "./cadence/kittyItemsMarket/contracts/KittyItemsMarket.cdc"
               {[ "testnet" := "0x123123123" ]} ]}.

(** The contracts of [generateComplexConfig] in the configuration tests. *)
Definition generateComplexConfig : list Contract :=
  [ {| Name := "NonFungibleToken";
       Location := "../hungry-kitties/cadence/contracts/NonFungibleToken.cdc";
       Network := "emulator"; Alias := EmptyString |};
    {| Name := "FungibleToken";
       Location := "../hungry-kitties/cadence/contracts/FungibleToken.cdc";
       Network := "emulator"; Alias := EmptyString |};
    {| Name := "Kibble"; Location := "./cadence/kibble/contracts/Kibble.cdc";
       Network := "emulator"; Alias := EmptyString |};
    {| Name := "KittyItems"; Location := "./cadence/kittyItems/contracts/KittyItems.cdc";
       Network := "emulator"; Alias := EmptyString |};
    {| Name := "KittyItemsMarket";
       Location := "./cadence/kittyItemsMarket/contracts/KittyItemsMarket.cdc";
       Network := "emulator"; Alias := EmptyString |};
    {| Name := "KittyItemsMarket"; Location := "0x123123123";
       Network := "testnet"; Alias := EmptyString |} ].

(** [assert.NoError] followed by [assert.Equal] on one field. *)
Definition field {A : Type} (f : Contract → A) (result : config_error + Contract)
    : option A :=
  match result with
  | inr c => Some (f c)
  | inl _ => None
  end.

End SampleConfig.

(** ** The commands: [internal/transactions/get.go] and
    [internal/accounts/create-interactive.go] *)

(** [s[n:]] on strings. *)
Fixpoint string_drop (n : nat) (s : string) : string :=
  match n, s with
  | 0, _ => s
  | S n', String _ s' => string_drop n' s'
  | S _, EmptyString => EmptyString
  end.

(** [strings.TrimPrefix(s, prefix)]: [s] without the leading [prefix], or
    [s] itself when it does not start with [prefix]. *)
Definition strings_TrimPrefix (s prefix : string) : string :=
  if strings_HasPrefix s prefix then string_drop (String.length prefix) s else s.

(** [time.Second], in nanoseconds. *)
Definition time_Second : Z := 1000000000.

(** [lilicoAccount] and [lilicoResponse]  (create-interactive.go, lines
    197-208). *)
Record lilicoAccount : Type := {
  PublicKey : string;
  SignatureAlgorithm : string;
  HashAlgorithm : string;
  Weight : Z
}.

Record lilicoResponse : Type := {
  Data_TxId : string
}.

(** [config.Network], as far as the commands read it. *)
Record config_Network : Type := {
  Network_Name : string;
  Network_Host : string
}.

(** The flags of [transactions get]  (get.go, lines 32-36). *)
Record flagsGet : Type := {
  Sealed : bool;
  Include : list string;
  Exclude : list string
}.

Section Commands.

(** The state of the world outside the process (network and files), the
    errors the collaborators return, and the types of the SDK the commands
    only pass around. *)
Context {World ExternalError Code : Type} `{!EqDecision Code}.
Context {flow_Identifier flow_Transaction flow_TransactionResult : Type}.
Context {flow_Address PrivateKey http_Request http_Response StdoutLogger : Type}.

(** A Go [error] in these commands: an error of a collaborator handed on as
    it is, [fmt.Errorf] of a plain message, or [fmt.Errorf] of a message that
    ends in the verb [%w] wrapping another error. *)
Inductive go_error : Type :=
  | External (e : ExternalError)
  | Errorf (message : string)
  | ErrorfW (message : string) (wrapped : go_error).

(** [flow.HexToID] and [flow.EmptyID]. *)
Context (flow_HexToID : string → flow_Identifier).
Context (flow_EmptyID : flow_Identifier).
(** [services.Transactions.GetStatus(id, waitSeal)]. *)
Context (GetStatus :
  World → flow_Identifier → bool →
  World * ((flow_Transaction * flow_TransactionResult) + ExternalError)).
(** [status.Code] and [codes.NotFound]. *)
Context (status_Code : ExternalError → Code).
Context (codes_NotFound : Code).
(** [time.Sleep]. *)
Context (time_Sleep : World → Z → World).

(** *** [get]  (get.go, lines 52-71) *)

(** The [TransactionResult] the command returns. *)
Record TransactionResult : Type := {
  result : flow_TransactionResult;
  tx : flow_Transaction;
  include : list string;
  exclude : list string
}.

(** The world after the call with the result or the error, or the panic of
    [args[0]] on an empty slice.  The reader-writer and the global flags of
    the signature are blank parameters. *)
Inductive get_outcome : Type :=
  | GetReturn (w : World) (res : TransactionResult + go_error)
  | GetPanic.

Definition get (getFlags : flagsGet) (w : World) (args : list string) : get_outcome :=
  match args !! 0 with
  | None => GetPanic
  | Some arg0 =>
      let id := flow_HexToID (strings_TrimPrefix arg0 "0x") in
      let '(w, status) := GetStatus w id (Sealed getFlags) in
      match status with
      | inr err => GetReturn w (inr (External err))
      | inl (tx, result) =>
          GetReturn w
            (inl {| result := result; tx := tx;
                    include := Include getFlags; exclude := Exclude getFlags |})
      end
  end.

(** *** [outputList]  (create-interactive.go, lines 263-274) *)

(** [log.Info]. *)
Context (Info : StdoutLogger → string → StdoutLogger).

(** The [for] loop, from the item of index [n] on. *)
Fixpoint outputItems (log : StdoutLogger) (numbered : bool) (n : nat)
    (items : list string) : StdoutLogger :=
  match items with
  | [] => log
  | item :: items' =>
      let sep := if numbered then " " +:+ fmt_d (n + 1) +:+ "." else " -" in
      outputItems (Info log (sep +:+ " " +:+ item)) numbered (S n) items'
  end.

(** [None] is the panic of [items[0]] on an empty slice. *)
Definition outputList (log : StdoutLogger) (items : list string) (numbered : bool)
    : option StdoutLogger :=
  match items with
  | [] => None
  | item0 :: items =>
      let log := Info log (item0 +:+ ":") in
      let log := outputItems log numbered 0 items in
      Some (Info log EmptyString)
  end.

(** *** [getAccountCreationResult]  (create-interactive.go, lines 183-194) *)

(** The function calls itself for as long as the status is NotFound; [fuel]
    bounds the number of calls, and [None] is a run that needs more. *)
Fixpoint getAccountCreationResult (fuel : nat) (w : World) (id : flow_Identifier)
    : option (World * (flow_TransactionResult + go_error)) :=
  match fuel with
  | 0 => None
  | S fuel' =>
      let '(w, status) := GetStatus w id true in
      match status with
      | inr err =>
          if decide (status_Code err = codes_NotFound) then
            let w := time_Sleep w (1 * time_Second)%Z in
            getAccountCreationResult fuel' w id
          else Some (w, inr (External err))
      | inl (_, result) => Some (w, inl result)
      end
  end.

(** The world after [k] rounds of a NotFound status followed by the sleep
    of one second, when the first [k] polls all answer NotFound. *)
Fixpoint notFoundRounds (k : nat) (w : World) (id : flow_Identifier) : option World :=
  match k with
  | 0 => Some w
  | S k' =>
      let '(w, status) := GetStatus w id true in
      match status with
      | inr err =>
          if decide (status_Code err = codes_NotFound) then
            notFoundRounds k' (time_Sleep w (1 * time_Second)%Z) id
          else None
      | inl _ => None
      end
  end.

(** *** [lilicoAccount.create]  (create-interactive.go, lines 213-260) *)

(** [crypto.SHA3_256.String()], [crypto.ECDSA_P256.String()],
    [flow.AccountKeyWeightThreshold], [config.DefaultTestnetNetwork().Name]
    and the package variable [accountToken]. *)
Context (SHA3_256_String ECDSA_P256_String : string).
Context (flow_AccountKeyWeightThreshold : Z).
Context (DefaultTestnetNetwork_Name : string).
Context (accountToken : string).
(** [json.Marshal] of the account, [http.NewRequest], [Header.Add],
    [client.Do], [res.Body.Close], [io.ReadAll] of the body and
    [json.Unmarshal] into a response. *)
Context (json_Marshal : lilicoAccount → list Byte.byte + ExternalError).
Context (http_NewRequest :
  string → string → list Byte.byte → http_Request + ExternalError).
Context (Header_Add : http_Request → string → string → http_Request).
Context (client_Do : World → http_Request → World * (http_Response + ExternalError)).
Context (Body_Close : World → http_Response → World).
Context (io_ReadAll :
  World → http_Response → World * (list Byte.byte * option ExternalError)).
Context (json_Unmarshal :
  list Byte.byte → lilicoResponse → lilicoResponse * option ExternalError).

(** The receiver is a pointer: the account as the method leaves it is part
    of the result, with the world and the two return values. *)
Definition lilicoAccount_create (l : lilicoAccount) (w : World) (network : string)
    : lilicoAccount * World * (flow_Identifier * option go_error) :=
  let l := {| PublicKey := PublicKey l;
              SignatureAlgorithm := SignatureAlgorithm l;
              HashAlgorithm := SHA3_256_String;
              Weight := Weight l |} in
  let l := {| PublicKey := PublicKey l;
              SignatureAlgorithm := ECDSA_P256_String;
              HashAlgorithm := HashAlgorithm l;
              Weight := Weight l |} in
  let l := {| PublicKey := PublicKey l;
              SignatureAlgorithm := SignatureAlgorithm l;
              HashAlgorithm := HashAlgorithm l;
              Weight := flow_AccountKeyWeightThreshold |} in
  match json_Marshal l with
  | inr err => (l, w, (flow_EmptyID, Some (External err)))
  | inl data =>
      let apiNetwork := EmptyString in
      let apiNetwork :=
        if String.eqb network DefaultTestnetNetwork_Name then "/testnet"
        else apiNetwork in
      match http_NewRequest "POST"
              ("https://openapi.lilico.org/v1/address" +:+ apiNetwork) data with
      | inr err =>
          (l, w, (flow_EmptyID,
                  Some (ErrorfW "could not create an account: " (External err))))
      | inl request =>
          let request :=
            Header_Add request "Content-Type" "application/json; charset=UTF-8" in
          let request := Header_Add request "Authorization" accountToken in
          let '(w, res) := client_Do w request in
          match res with
          | inr err =>
              (l, w, (flow_EmptyID,
                      Some (ErrorfW "could not create an account: " (External err))))
          | inl res =>
              let '(w, (body, _)) := io_ReadAll w res in
              let '(lilicoRes, err) :=
                json_Unmarshal body {| Data_TxId := EmptyString |} in
              match err with
              | Some err =>
                  (l, Body_Close w res,
                   (flow_EmptyID,
                    Some (ErrorfW "could not create an account: " (External err))))
              | None =>
                  (l, Body_Close w res, (flow_HexToID (Data_TxId lilicoRes), None))
              end
          end
      end
  end.

(** *** [createNetworkAccount]  (create-interactive.go, lines 112-153) *)

(** [flowkit.AccountKey] as the two constructors used here build it, and
    [flowkit.Account] with its setters. *)
Inductive AccountKey : Type :=
  | NewFileAccountKey (location : string) (index : nat) (sigAlgo hashAlgo : string)
  | NewHexAccountKeyFromPrivateKey (index : nat) (hashAlgo : string) (key : PrivateKey).

Record Account : Type := {
  Account_name : string;
  Account_address : option flow_Address;
  Account_key : option AccountKey
}.

Definition NewAccount (name : string) : Account :=
  {| Account_name := name; Account_address := None; Account_key := None |}.

Definition SetAddress (a : Account) (address : flow_Address) : Account :=
  {| Account_name := Account_name a; Account_address := Some address;
     Account_key := Account_key a |}.

Definition SetKey (a : Account) (key : AccountKey) : Account :=
  {| Account_name := Account_name a; Account_address := Account_address a;
     Account_key := Some key |}.

(** [key.PublicKey().String()], [key.String()],
    [flowkit.EventsFromTransaction(result).GetCreatedAddresses()],
    [util.AddToGitIgnore] and [ReaderWriter.WriteFile] (with the file mode
    0644, which is 420). *)
Context (PublicKey_String PrivateKey_String : PrivateKey → string).
Context (GetCreatedAddresses : flow_TransactionResult → list flow_Address).
Context (AddToGitIgnore : World → string → World * option ExternalError).
Context (WriteFile : World → string → string → Z → World * option ExternalError).

Definition createNetworkAccount (fuel : nat) (w : World) (name : string)
    (key : PrivateKey) (privateFile : string) (network : config_Network)
    : option (World * (Account + go_error)) :=
  let networkAccount :=
    {| PublicKey := strings_TrimPrefix (PublicKey_String key) "0x";
       SignatureAlgorithm := EmptyString;
       HashAlgorithm := EmptyString;
       Weight := 0 |} in
  let '(networkAccount, w, (id, err)) :=
    lilicoAccount_create networkAccount w (Network_Name network) in
  match err with
  | Some err => Some (w, inr err)
  | None =>
      match getAccountCreationResult fuel w id with
      | None => None
      | Some (w, inr err) => Some (w, inr err)
      | Some (w, inl result) =>
          let address := GetCreatedAddresses result in
          match address with
          | [] => Some (w, inr (Errorf "account creation error"))
          | address0 :: _ =>
              let '(w, err) := AddToGitIgnore w privateFile in
              match err with
              | Some err => Some (w, inr (External err))
              | None =>
                  let '(w, err) :=
                    WriteFile w privateFile (PrivateKey_String key) 420 in
                  match err with
                  | Some err =>
                      Some (w, inr (ErrorfW "failed saving private key: "
                                      (External err)))
                  | None =>
                      Some (w,
                            inl (SetKey (SetAddress (NewAccount name) address0)
                                   (NewFileAccountKey privateFile 0
                                      ECDSA_P256_String SHA3_256_String)))
                  end
              end
          end
      end
  end.

End Commands.

(** ** A small instance of the services of the commands

    The world counts the seconds slept; a transaction is found once two
    seconds have passed, and a transaction whose id starts with ff does not
    exist.  The file operations record nothing but can be made to fail. *)
Module SampleCommands.

Definition NotFound : nat := 5.
Definition Internal : nat := 13.

Definition hexToID (s : string) : string := s.

Definition getStatus (w : nat) (id : string) (sealed : bool)
    : nat * ((string * string) + nat) :=
  if strings_HasPrefix id "ff" then (w, inr Internal)
  else if w <? 2 then (w, inr NotFound)
  else (w, inl ("tx " +:+ id, "result " +:+ id)).

Definition statusCode (e : nat) : nat := e.

Definition sleep (w : nat) (d : Z) : nat := w + Z.to_nat (d / time_Second).

Definition flags : flagsGet :=
  {| Sealed := true; Include := ["code"]; Exclude := [] |}.

Definition marshal (l : lilicoAccount) : list Byte.byte + nat := inl [].

Definition newRequest (method url : string) (body : list Byte.byte)
    : list string + nat :=
  inl [method; url].

Definition headerAdd (request : list string) (key value : string) : list string :=
  request ++ [key +:+ ": " +:+ value].

Definition clientDo (w : nat) (request : list string) : nat * (string + nat) :=
  (w, inl "a1b2").

Definition bodyClose (w : nat) (res : string) : nat := w.

Definition readAll (w : nat) (res : string) : nat * (list Byte.byte * option nat) :=
  (w, ([], None)).

Definition unmarshal (body : list Byte.byte) (res : lilicoResponse)
    : lilicoResponse * option nat :=
  ({| Data_TxId := "a1b2" |}, None).

Definition createdAddresses (result : string) : list string := ["f8d6e0586b0a20c7"].

Definition noAddresses (result : string) : list string := [].

Definition addToGitIgnore (w : nat) (file : string) : nat * option nat := (w, None).

Definition gitIgnoreFails (w : nat) (file : string) : nat * option nat :=
  (w, Some Internal).

Definition writeFile (w : nat) (file content : string) (mode : Z) : nat * option nat :=
  (w, None).

Definition writeFileFails (w : nat) (file content : string) (mode : Z)
    : nat * option nat :=
  (w, Some Internal).

Definition keyString (key : string) : string := key.

Definition publicKeyString (key : string) : string := "0x" +:+ key.

Definition testnet : config_Network :=
  {| Network_Name := "testnet"; Network_Host := "access.devnet.nodes.onflow.org:9000" |}.

(** The commands on these services. *)
Definition getTransaction : nat → list string → get_outcome :=
  get hexToID getStatus flags.

Definition poll : nat → nat → string → option (nat * (string + go_error)) :=
  getAccountCreationResult getStatus statusCode NotFound sleep.

Definition create (testnetName : string)
    : lilicoAccount → nat → string → lilicoAccount * nat * (string * option go_error) :=
  lilicoAccount_create hexToID EmptyString "SHA3_256" "ECDSA_P256" 1000
    testnetName EmptyString marshal newRequest headerAdd clientDo bodyClose
    readAll unmarshal.

(** The same with a service that answers with something that is not the
    expected JSON. *)
Definition unmarshalFails (body : list Byte.byte) (res : lilicoResponse)
    : lilicoResponse * option nat :=
  (res, Some Internal).

Definition createUnparsed
    : lilicoAccount → nat → string → lilicoAccount * nat * (string * option go_error) :=
  lilicoAccount_create hexToID EmptyString "SHA3_256" "ECDSA_P256" 1000
    "testnet" EmptyString marshal newRequest headerAdd clientDo bodyClose
    readAll unmarshalFails.

Definition createAccount (addresses : string → list string)
    (gitIgnore : nat → string → nat * option nat)
    (write : nat → string → string → Z → nat * option nat)
    : nat → nat → string → string → string → config_Network →
      option (nat * (Account + go_error)) :=
  createNetworkAccount hexToID EmptyString getStatus statusCode NotFound sleep
    "SHA3_256" "ECDSA_P256" 1000 "testnet" EmptyString marshal newRequest
    headerAdd clientDo bodyClose readAll unmarshal publicKeyString keyString
    addresses gitIgnore write.

End SampleCommands.

(** * Properties *)

(** ** Strings *)

Lemma append_cons (a : ascii) (s t : string) : String a s +:+ t = String a (s +:+ t).
Proof. reflexivity. Qed.

Lemma prefix_app (p s : string) :
  String.prefix p s = true ↔ ∃ t, s = p +:+ t.
Proof.
  revert s. induction p as [|a p IH]; intros s.
  - split; [intros _; by exists s | by destruct s].
  - destruct s as [|b s]; simpl.
    + split; [done | by intros [t Ht]].
    + destruct (Ascii.ascii_dec a b) as [->|Hab].
      * rewrite IH. split; intros [t Ht]; exists t.
        -- by rewrite append_cons, Ht.
        -- rewrite append_cons in Ht. by injection Ht.
      * split; [done | intros [t Ht]; rewrite append_cons in Ht; injection Ht; congruence].
Qed.

Lemma strings_Contains_unfold (s substr : string) :
  strings_Contains s substr
  = String.prefix substr s
    || match s with
       | EmptyString => false
       | String _ s' => strings_Contains s' substr
       end.
Proof. by destruct s. Qed.

Lemma strings_Contains_app (s substr : string) :
  strings_Contains s substr = true ↔ ∃ a b, s = a +:+ substr +:+ b.
Proof.
  induction s as [|c s IH];
    rewrite strings_Contains_unfold, orb_true_iff, prefix_app.
  - split.
    + intros [[t Ht]|?]; [|done]. by exists EmptyString, t.
    + intros ([|c a] & b & Hab); [left; by exists b | done].
  - rewrite IH. split.
    + intros [[t Ht]|(a & b & Hab)].
      * by exists EmptyString, t.
      * exists (String c a), b. by rewrite append_cons, Hab.
    + intros ([|c' a] & b & Hab).
      * left. by exists b.
      * right. exists a, b. rewrite append_cons in Hab. by injection Hab.
Qed.

Example strings_Contains_examples :
  strings_Contains "1234" "0x" = false
  ∧ strings_Contains "0x1234" "0x" = true
  ∧ strings_Contains "12340x" "0x" = true
  ∧ strings_Contains "f8d60x6e" "0x" = true.
Proof. repeat split. Qed.

Example fmt_d_examples :
  fmt_d 0 = "0" ∧ fmt_d 7 = "7" ∧ fmt_d 12 = "12".
Proof. repeat split. Qed.

Example ArgumentCountMismatch_example :
  ArgumentCountMismatch 1 2 = "argument count is 1, expected 2".
Proof. reflexivity. Qed.

Example ArgumentTypeMismatch_example :
  ArgumentTypeMismatch "amount" "UFix64"
  = "argument `amount` is not expected type `UFix64`".
Proof. reflexivity. Qed.

(** ** The rewriting loop *)

Lemma rewriteArgument_leaf (semaType : sema_Type) (argumentString : string) :
  (rewriteArgument semaType argumentString).2 = leafType semaType.
Proof.
  induction semaType as [T IH|n| |n]; simpl; auto.
  - repeat case_match; done.
  - case_match; done.
Qed.

Lemma rewriteArgument_unwrap (semaType : sema_Type) (argumentString : string) :
  rewriteArgument semaType argumentString
  = rewriteArgument (leafType semaType) argumentString.
Proof. induction semaType; simpl; auto. Qed.

(** C10: an input that [strconv.ParseBool] does not accept makes the
    conversion fail, and [processValue] with type Bool then yields the
    boolean false; the error of the conversion is dropped, and the result
    carries none. *)
Theorem processValue_Bool_invalid (argValue : string) :
  argValue ∉ ["1"; "t"; "T"; "true"; "TRUE"; "True";
              "0"; "f"; "F"; "false"; "FALSE"; "False"] →
  (strconv_ParseBool argValue).2 ≠ None
  ∧ processValue "Bool" argValue = ProcessedBool false.
Proof.
  intros Hnot.
  change (argValue ∉ ["1"; "t"; "T"; "true"; "TRUE"; "True"]
                     ++ ["0"; "f"; "F"; "false"; "FALSE"; "False"]) in Hnot.
  apply not_elem_of_app in Hnot as [Htrue Hfalse].
  unfold processValue, strconv_ParseBool. simpl.
  by rewrite !bool_decide_eq_false_2.
Qed.

Lemma processValue_Bool_invalid_witness :
  (strconv_ParseBool "maybe").2 ≠ None
  ∧ processValue "Bool" "maybe" = ProcessedBool false.
Proof.
  apply (processValue_Bool_invalid "maybe").
  apply (bool_decide_eq_false_1 _). vm_compute. reflexivity.
Defined.

(** ** The engine *)

Section EngineProperties.

Context {ast_Type cadence_Value Checker Interpreter : Type}.
Context (PrepareProgram : list Byte.byte → common_Location → @Program ast_Type).
Context (PrepareChecker :
  @Program ast_Type → common_Location → gmap common_Location (list Byte.byte) → Checker).
Context (ConvertType : Checker → ast_Type → sema_Type).
Context (QualifiedString : sema_Type → string).
Context (NewInterpreter : Interpreter + error).
Context (ParseLiteral : string → sema_Type → Interpreter → cadence_Value + error).

Local Abbreviation count := (GetAuthorizerCount PrepareProgram).
Local Abbreviation parse := (parseArgument ConvertType ParseLiteral).
Local Abbreviation loop := (coerceFrom ConvertType QualifiedString ParseLiteral).
Local Abbreviation coerce :=
  (coerceArguments ConvertType QualifiedString NewInterpreter ParseLiteral).
Local Abbreviation engine :=
  (ParseArgumentsWithoutType PrepareProgram PrepareChecker ConvertType
     QualifiedString NewInterpreter ParseLiteral).
Local Abbreviation typeOf checker parameter :=
  (ConvertType checker (TypeAnnotation_Type parameter)).



(** C8: the count of authorizers is the length of the parameter list of the
    prepare block when the program has exactly one transaction declaration,
    with a prepare block that has a parameter list; it is zero when the
    number of transaction declarations is not one, when the only one has no
    prepare block, and when its prepare block has no parameter list. *)
Theorem GetAuthorizerCount_prepare (fileName : string) (code : list Byte.byte) :
  let program := PrepareProgram code (StringLocation fileName) in
  (∀ td prepare parameters,
     TransactionDeclarations program = [td] →
     Prepare td = Some prepare →
     FunctionDeclaration_ParameterList
       (SpecialFunctionDeclaration_FunctionDeclaration prepare) = Some parameters →
     count fileName code = len (Parameters parameters))
  ∧ (length (TransactionDeclarations program) ≠ 1 → count fileName code = 0)
  ∧ (∀ td,
       TransactionDeclarations program = [td] → Prepare td = None →
       count fileName code = 0)
  ∧ (∀ td prepare,
       TransactionDeclarations program = [td] →
       Prepare td = Some prepare →
       FunctionDeclaration_ParameterList
         (SpecialFunctionDeclaration_FunctionDeclaration prepare) = None →
       count fileName code = 0).
Proof.
  intros program. unfold GetAuthorizerCount. fold program.
  repeat split.
  - intros td prepare parameters -> -> ->. done.
  - destruct (TransactionDeclarations program) as [|td [|td' tds]]; simpl; done.
  - intros td -> ->. done.
  - intros td prepare -> -> ->. done.
Qed.

(** The loop of lines 147-182 over the arguments from [index] on, when as
    many parameters are left as arguments: either every argument is accepted
    and the values are appended in order, or the first rejected argument
    ends the call with its type mismatch. *)
Lemma coerceFrom_cases (checker : Checker) (inter : Interpreter)
    (parameterList : list ast_Parameter) (args : list string) :
  ∀ (index : nat) (resultArgs : list cadence_Value),
  index + length args = length parameterList →
  (∃ values,
     loop checker inter parameterList index args resultArgs
     = Return (Some (resultArgs ++ values)) None
     ∧ length values = length args
     ∧ ∀ k a, args !! k = Some a →
         ∃ p v, parameterList !! (index + k) = Some p
                ∧ values !! k = Some v
                ∧ parse checker inter p a = inl v)
  ∨ (∃ k p a e,
       args !! k = Some a
       ∧ parameterList !! (index + k) = Some p
       ∧ parse checker inter p a = inr e
       ∧ (∀ k' a', k' < k → args !! k' = Some a' →
            ∃ p' v, parameterList !! (index + k') = Some p'
                    ∧ parse checker inter p' a' = inl v)
       ∧ loop checker inter parameterList index args resultArgs
         = Return None
             (Some (ArgumentTypeMismatch (Identifier p)
                      (QualifiedString (leafType (typeOf checker p)))))).
Proof.
  induction args as [|a args IH]; intros index resultArgs Hlen.
  - left. exists []. rewrite app_nil_r. repeat split. intros k a Hk. done.
  - simpl in Hlen.
    destruct (lookup_lt_is_Some_2 parameterList index) as [p Hp]; [lia|].
    simpl. rewrite Hp.
    pose proof (rewriteArgument_leaf (typeOf checker p) a) as Hleaf.
    assert (parse checker inter p a
            = ParseLiteral (rewriteArgument (typeOf checker p) a).1
                           (rewriteArgument (typeOf checker p) a).2 inter)
      as Hparse by done.
    destruct (rewriteArgument (typeOf checker p) a) as [rewritten leaf].
    simpl in Hleaf, Hparse. subst leaf.
    destruct (ParseLiteral rewritten (leafType (typeOf checker p)) inter)
      as [value|e] eqn:Hliteral.
    + destruct (IH (S index) (resultArgs ++ [value])) as
        [(values & Hrun & Hvalues & Hall)|(k & p' & a' & e & Ha' & Hp' & He & Hbefore & Hrun)];
        [lia| |].
      * left. exists (value :: values). rewrite Hrun, <- app_assoc. simpl.
        repeat split; [by rewrite Hvalues|].
        intros [|k] a0 Hk; simpl in Hk.
        -- injection Hk as <-. exists p, value. by rewrite Nat.add_0_r.
        -- destruct (Hall k a0 Hk) as (p0 & v0 & Hp0 & Hv0 & Hparse0).
           exists p0, v0. by rewrite Nat.add_succ_r.
      * right. exists (S k), p', a', e. rewrite Nat.add_succ_r.
        repeat split; try done.
        intros [|k'] a0 Hlt Hk; simpl in Hk.
        -- injection Hk as <-. exists p, value. by rewrite Nat.add_0_r.
        -- destruct (Hbefore k' a0) as (p0 & v0 & Hp0 & Hparse0); [lia|done|].
           exists p0, v0. by rewrite Nat.add_succ_r.
    + right. exists 0, p, a, e. rewrite Nat.add_0_r.
      repeat split; try done. intros k' a' Hlt. lia.
Qed.

(** *** The choice of the parameter list *)

Lemma entryPointParameters_contract (program : @Program ast_Type)
    (pl : @ParameterList ast_Type) :
  contractCandidate program pl → entryPointParameters program = Parameters pl.
Proof.
  intros (c & initializer & Hc & Hinit & Hpl).
  unfold entryPointParameters. by rewrite Hc, Hinit, Hpl.
Qed.

(** Closes a branch of [entryPointParameters] that a missing candidate
    excludes. *)
Local Ltac no_candidate :=
  exfalso;
  match goal with
  | Hno : ∀ pl', ¬ contractCandidate _ pl' |- _ =>
      eapply Hno; eexists _, _; repeat split; eassumption
  | Hno : ∀ pl', ¬ transactionCandidate _ pl' |- _ =>
      eapply Hno; eexists; split; eassumption
  | Hno : ∀ pl', ¬ functionCandidate _ pl' |- _ =>
      eapply Hno; eexists; split; eassumption
  end.

Lemma entryPointParameters_transaction (program : @Program ast_Type)
    (pl : @ParameterList ast_Type) :
  (∀ pl', ¬ contractCandidate program pl') →
  transactionCandidate program pl → entryPointParameters program = Parameters pl.
Proof.
  intros Hnoc (td & Htd & Hpl). unfold entryPointParameters.
  rewrite Htd, Hpl. repeat case_match; try done; no_candidate.
Qed.

Lemma entryPointParameters_function (program : @Program ast_Type)
    (pl : @ParameterList ast_Type) :
  (∀ pl', ¬ contractCandidate program pl') →
  (∀ pl', ¬ transactionCandidate program pl') →
  functionCandidate program pl → entryPointParameters program = Parameters pl.
Proof.
  intros Hnoc Hnot (fd & Hfd & Hpl). unfold entryPointParameters.
  rewrite Hfd, Hpl. repeat case_match; try done; no_candidate.
Qed.

Lemma entryPointParameters_none (program : @Program ast_Type) :
  (∀ pl', ¬ contractCandidate program pl') →
  (∀ pl', ¬ transactionCandidate program pl') →
  (∀ pl', ¬ functionCandidate program pl') →
  entryPointParameters program = None.
Proof.
  intros Hnoc Hnot Hnof. unfold entryPointParameters.
  repeat case_match; try done; no_candidate.
Qed.

(** C9: [ParseArgumentsWithoutType] chooses its parameter list itself, and
    the later assignment wins: the list of the only initializer of a sole
    contract declaration is used whatever else the file holds; without it,
    the top-level list of a single transaction declaration is used, also
    when there is a function entry point; the list of the function entry
    point is used only when neither of the two is there.  A candidate counts
    when its parameter list is present, as lines 112, 119 and 128 test. *)
Theorem entry_point_precedence (fileName : string) (code : list Byte.byte)
    (args : list string) :
  let location := StringLocation fileName in
  let program := PrepareProgram code location in
  let checker := PrepareChecker program location {[ location := code ]} in
  (∀ pl, contractCandidate program pl →
     engine fileName code args = coerce checker (Parameters pl) args [])
  ∧ (∀ pl, (∀ pl', ¬ contractCandidate program pl') →
       transactionCandidate program pl →
       engine fileName code args = coerce checker (Parameters pl) args [])
  ∧ (∀ pl, (∀ pl', ¬ contractCandidate program pl') →
       (∀ pl', ¬ transactionCandidate program pl') →
       functionCandidate program pl →
       engine fileName code args = coerce checker (Parameters pl) args [])
  ∧ ((∀ pl', ¬ contractCandidate program pl') →
     (∀ pl', ¬ transactionCandidate program pl') →
     (∀ pl', ¬ functionCandidate program pl') →
     engine fileName code args = coerce checker None args []).
Proof.
  intros location program checker. unfold ParseArgumentsWithoutType.
  fold location program checker. repeat split.
  - intros pl Hc. by rewrite (entryPointParameters_contract _ pl).
  - intros pl Hnoc Ht. by rewrite (entryPointParameters_transaction _ pl).
  - intros pl Hnoc Hnot Hf. by rewrite (entryPointParameters_function _ pl).
  - intros Hnoc Hnot Hnof. by rewrite entryPointParameters_none.
Qed.

(** C1, amended: when the program has no function entry point, no single
    transaction declaration with a top-level parameter list and no sole
    contract declaration with exactly one initializer, the call returns the
    empty list of values without error, for an empty list of raw arguments
    and for a non-empty one alike. *)
Theorem no_entry_point_no_error (fileName : string) (code : list Byte.byte)
    (args : list string) :
  let program := PrepareProgram code (StringLocation fileName) in
  FunctionEntryPointDeclaration program = None →
  (∀ td pl, TransactionDeclarations program = [td] →
            TransactionDeclaration_ParameterList td = Some pl → False) →
  (∀ contractDeclaration initializer,
     SoleContractDeclaration program = Some contractDeclaration →
     Members_Initializers contractDeclaration = [initializer] → False) →
  engine fileName code args = Return (Some []) None.
Proof.
  intros program Hfunction Htransaction Hcontract.
  unfold ParseArgumentsWithoutType. fold program.
  rewrite entryPointParameters_none; [done | | |].
  - intros pl (c & initializer & Hc & Hinit & _). eauto.
  - intros pl (td & Htd & Hpl). eauto.
  - intros pl (fd & Hfd & _). congruence.
Qed.

(** C2, amended: with a nil parameter list the call returns the empty list
    without error for every input.  For a parameter list that is not nil, of
    length k: with n raw strings and n different from k the call fails with
    the count mismatch that reports n and k, and returns no values; with k
    raw strings, once the interpreter is created and the literal parser
    accepts every rewritten string, it returns k values, the i-th being the
    literal parsed from the i-th raw string against the i-th parameter. *)
Theorem coercion_positional (fileName : string) (code : list Byte.byte)
    (args : list string) :
  let location := StringLocation fileName in
  let program := PrepareProgram code location in
  let checker := PrepareChecker program location {[ location := code ]} in
  (entryPointParameters program = None →
     engine fileName code args = Return (Some []) None)
  ∧ ∀ parameterList : list ast_Parameter,
      entryPointParameters program = Some parameterList →
      (length args ≠ length parameterList →
         engine fileName code args
         = Return None
             (Some (ArgumentCountMismatch (length args) (length parameterList))))
      ∧ (∀ inter,
           length args = length parameterList →
           NewInterpreter = inl inter →
           (∀ i p a, parameterList !! i = Some p → args !! i = Some a →
                     ∃ v, parse checker inter p a = inl v) →
           ∃ values,
             engine fileName code args = Return (Some values) None
             ∧ length values = length parameterList
             ∧ ∀ i p a, parameterList !! i = Some p → args !! i = Some a →
                 ∃ v, values !! i = Some v ∧ parse checker inter p a = inl v).
Proof.
  intros location program checker.
  unfold ParseArgumentsWithoutType. fold location program checker.
  split; [by intros ->|].
  intros parameterList Hlist.
  rewrite Hlist. unfold coerceArguments. split.
  - intros Hne.
    destruct (Nat.eqb_spec (length parameterList) (length args)) as [Heq|_];
      [by destruct Hne | done].
  - intros inter Heq Hinter Haccepted.
    rewrite Heq, Nat.eqb_refl, Hinter. simpl.
    destruct (coerceFrom_cases checker inter parameterList args 0 [])
      as [(values & Hrun & Hvalues & Hall)|(k & p & a & e & Ha & Hp & He & _)];
      [by rewrite Heq| |].
    + exists values. rewrite Hrun. repeat split; [congruence|].
      intros i p a Hp Ha.
      destruct (Hall i a Ha) as (p' & v & Hp' & Hv & Hparse).
      simpl in Hp'. exists v. by simplify_eq.
    + simpl in Hp. destruct (Haccepted k p a Hp Ha) as [v Hv]. congruence.
Qed.

(** C7: when the count of raw strings is right and the interpreter is
    created, a parameter whose rewritten string the literal parser rejects
    makes the whole call fail: no values are returned, and the error is the
    type mismatch of the first rejected parameter (that parameter itself
    when every one before it is accepted), built from its identifier and
    from the qualified name of its leaf type only, whatever error the
    literal parser gave. *)
Theorem rejected_argument_type_mismatch (fileName : string) (code : list Byte.byte)
    (args : list string) (parameterList : list ast_Parameter)
    (inter : Interpreter) (i : nat) (p : ast_Parameter) (a : string) (e : error) :
  let location := StringLocation fileName in
  let program := PrepareProgram code location in
  let checker := PrepareChecker program location {[ location := code ]} in
  entryPointParameters program = Some parameterList →
  length args = length parameterList →
  NewInterpreter = inl inter →
  parameterList !! i = Some p →
  args !! i = Some a →
  parse checker inter p a = inr e →
  ∃ j p' a' e',
    j ≤ i
    ∧ parameterList !! j = Some p'
    ∧ args !! j = Some a'
    ∧ parse checker inter p' a' = inr e'
    ∧ (∀ j' q b, j' < j → parameterList !! j' = Some q → args !! j' = Some b →
         ∃ v, parse checker inter q b = inl v)
    ∧ ((∀ j' q b, j' < i → parameterList !! j' = Some q → args !! j' = Some b →
          ∃ v, parse checker inter q b = inl v) → j = i)
    ∧ engine fileName code args
      = Return None
          (Some (ArgumentTypeMismatch (Identifier p')
                   (QualifiedString (leafType (typeOf checker p'))))).
Proof.
  intros location program checker Hlist Heq Hinter Hp Ha Hrejected.
  unfold ParseArgumentsWithoutType. fold location program checker.
  rewrite Hlist. unfold coerceArguments.
  rewrite Heq, Nat.eqb_refl, Hinter. simpl.
  destruct (coerceFrom_cases checker inter parameterList args 0 [])
    as [(values & _ & _ & Hall)|(k & p' & a' & e' & Ha' & Hp' & He' & Hbefore & Hrun)];
    [by rewrite Heq| |].
  - destruct (Hall i a Ha) as (q & v & Hq & _ & Hparse).
    simpl in Hq. simplify_eq. congruence.
  - simpl in Hp'.
    assert (k ≤ i) as Hle.
    { destruct (decide (k ≤ i)) as [|Hgt]; [done|].
      destruct (Hbefore i a) as (q & v & Hq & Hparse); [lia|done|].
      simpl in Hq. simplify_eq. congruence. }
    exists k, p', a', e'. repeat split; try done.
    + intros j' q b Hlt Hq Hb.
      destruct (Hbefore j' b Hlt Hb) as (q' & v & Hq' & Hparse).
      simpl in Hq'. exists v. by simplify_eq.
    + intros Hfirst.
      destruct (decide (k = i)) as [|Hne]; [done|].
      destruct (Hfirst k p' a') as [v Hv]; [lia|done|done|]. congruence.
Qed.

(** *** More on the engine *)

(** X1: once the program and the checker are prepared, the rest of the
    function (lines 108-182: the choice of the parameter list and the
    coercion) never panics on an index out of range, for any program and any
    raw arguments, and it ends with either a list of values (not nil) and no
    error, or nil and an error: never values together with an error, never
    nil without one. *)
Theorem coerceArguments_values_or_error (program : @Program ast_Type)
    (checker : Checker) (args : list string) :
  let outcome := coerce checker (entryPointParameters program) args [] in
  (∃ values, outcome = Return (Some values) None)
  ∨ (∃ err, outcome = Return None (Some err)).
Proof.
  unfold coerceArguments.
  destruct (entryPointParameters program) as [parameterList|]; [|left; by eexists].
  destruct (Nat.eqb_spec (length parameterList) (length args)) as [Heq|Hne];
    simpl; [|right; by eexists].
  destruct NewInterpreter as [inter|err]; [|right; by eexists].
  destruct (coerceFrom_cases checker inter parameterList args 0 [])
    as [(values & -> & _)|(k & p & a & e & _ & _ & _ & _ & ->)];
    [by rewrite Heq|left; by eexists|right; by eexists].
Qed.

(** X2: when a call succeeds, either no parameter list was chosen and the
    result is empty, or the interpreter was created, there are as many raw
    arguments as parameters, and the result has one value for every raw
    argument, in order: the literal parsed from that argument against the
    parameter of the same position. *)
Theorem engine_success_sound (fileName : string) (code : list Byte.byte)
    (args : list string) (values : list cadence_Value) :
  let location := StringLocation fileName in
  let program := PrepareProgram code location in
  let checker := PrepareChecker program location {[ location := code ]} in
  engine fileName code args = Return (Some values) None →
  (entryPointParameters program = None ∧ values = [])
  ∨ (∃ parameterList inter,
       entryPointParameters program = Some parameterList
       ∧ NewInterpreter = inl inter
       ∧ length parameterList = length args
       ∧ length values = length args
       ∧ ∀ i a, args !! i = Some a →
           ∃ p v, parameterList !! i = Some p
                  ∧ values !! i = Some v
                  ∧ parse checker inter p a = inl v).
Proof.
  intros location program checker.
  unfold ParseArgumentsWithoutType, coerceArguments. fold location program checker.
  destruct (entryPointParameters program) as [parameterList|];
    [|intros [= <-]; by left].
  destruct (Nat.eqb_spec (length parameterList) (length args)) as [Heq|Hne];
    simpl; [|done].
  destruct NewInterpreter as [inter|err]; [|done].
  destruct (coerceFrom_cases checker inter parameterList args 0 [])
    as [(values' & -> & Hlen & Hall)|(k & p & a & e & _ & _ & _ & _ & ->)];
    [by rewrite Heq| |done].
  intros [= <-]. right. exists parameterList, inter. repeat split; try done.
Qed.

(** X3: rewriting is idempotent: the string the loop of lines 151-170 yields
    is left as it is when the loop runs on it again with the same type. *)
Theorem rewriteArgument_idempotent (semaType : sema_Type) (argumentString : string) :
  rewriteArgument semaType (rewriteArgument semaType argumentString).1
  = rewriteArgument semaType argumentString.
Proof.
  induction semaType as [T IH|n| |n]; cbn [rewriteArgument]; [done| | |done].
  - case_bool_decide; [|done].
    destruct ((0 <? String.length argumentString)
              && negb (strings_HasPrefix argumentString dquote_string)) eqn:Hquote;
      cbn [fst]; [|by rewrite Hquote].
    assert (strings_HasPrefix (dquote_string +:+ argumentString +:+ dquote_string)
                              dquote_string = true) as ->.
    { unfold strings_HasPrefix. apply prefix_app. by eexists. }
    by rewrite andb_false_r.
  - destruct (strings_Contains argumentString "0x") eqn:Hcontains; cbn [negb fst].
    + by rewrite Hcontains.
    + assert (strings_Contains ("0x" +:+ argumentString) "0x" = true) as ->; [|done].
      apply strings_Contains_app. by exists EmptyString, argumentString.
Qed.

Lemma rewriteArgument_StringType (argumentString : string) :
  rewriteArgument StringType argumentString
  = if (0 <? String.length argumentString)
       && negb (strings_HasPrefix argumentString dquote_string)
    then (dquote_string +:+ argumentString +:+ dquote_string, StringType)
    else (argumentString, StringType).
Proof. reflexivity. Qed.

(** X4: what the literal parser receives is in normal form: for an address
    leaf type the string contains 0x, and for the string leaf type it is
    empty or starts with a double quote. *)
Theorem rewriteArgument_normal_form (semaType : sema_Type) (argumentString : string) :
  (leafType semaType = AddressType →
     strings_Contains (rewriteArgument semaType argumentString).1 "0x" = true)
  ∧ (leafType semaType = StringType →
       (rewriteArgument semaType argumentString).1 = EmptyString
       ∨ strings_HasPrefix (rewriteArgument semaType argumentString).1
                           dquote_string = true).
Proof.
  rewrite rewriteArgument_unwrap. split; intros ->.
  - cbn [rewriteArgument].
    destruct (strings_Contains argumentString "0x") eqn:Hcontains;
      cbn [negb fst]; [done|].
    apply strings_Contains_app. by exists EmptyString, argumentString.
  - rewrite rewriteArgument_StringType.
    destruct argumentString as [|c rest]; [by left|right].
    change (0 <? String.length (String c rest)) with true.
    destruct (strings_HasPrefix (String c rest) dquote_string) eqn:Hprefix;
      cbn [negb andb fst]; [done|].
    unfold strings_HasPrefix. apply prefix_app. by eexists.
Qed.

(** X5: for a leaf type that is neither the string type nor the address
    type (Bool, the numbers, arrays and so on) the raw string reaches the
    literal parser unchanged, with the leaf type. *)
Theorem other_argument_unchanged (semaType : sema_Type) (argumentString : string) :
  leafType semaType ≠ StringType →
  leafType semaType ≠ AddressType →
  rewriteArgument semaType argumentString = (argumentString, leafType semaType).
Proof.
  intros Hstring Haddress. rewrite rewriteArgument_unwrap.
  destruct (leafType semaType) as [T|n| |n] eqn:Hleaf;
    cbn [rewriteArgument]; try done.
  - exfalso. clear -Hleaf. induction semaType; simpl in Hleaf; eauto; done.
  - by rewrite bool_decide_eq_false_2.
Qed.


End EngineProperties.

(** X7: [processValue] with the type Bool yields true for exactly six
    spellings (1, t, T, true, TRUE, True) and false for every other string. *)
Theorem processValue_Bool_table (argValue : string) :
  processValue "Bool" argValue
  = ProcessedBool (bool_decide (argValue ∈ ["1"; "t"; "T"; "true"; "TRUE"; "True"])).
Proof.
  unfold processValue, strconv_ParseBool. simpl.
  case_bool_decide; [done|]. by case_bool_decide.
Qed.

(** *** The engine on concrete programs *)

Lemma processValue_Address_examples :
  processValue "Address" "1234" = ProcessedString "0x1234"
  ∧ processValue "Address" "0x1234" = ProcessedString "0x1234"
  ∧ processValue "String" "1234" = ProcessedString "1234"
  ∧ processValue "Bool" "true" = ProcessedBool true.
Proof. repeat split. Qed.



Lemma GetAuthorizerCount_prepare_witness :
  GetAuthorizerCount (Sample.prepareProgram Sample.everything) "tx.cdc" [] = 1.
Proof.
  exact (proj1 (GetAuthorizerCount_prepare
                  (Sample.prepareProgram Sample.everything) "tx.cdc" [])
           _ _
           {| Parameters := Some [Sample.parameter "signer" (OtherType "AuthAccount")] |}
           eq_refl eq_refl eq_refl).
Defined.

Lemma entry_point_precedence_witness :
  contractCandidate Sample.everything
    {| Parameters := Some [Sample.parameter "c1" (OtherType "Int");
                           Sample.parameter "c2" (OtherType "Int")] |}
  ∧ Sample.run Sample.everything ["1"; "2"]
    = Return (Some [("1", OtherType "Int"); ("2", OtherType "Int")]) None.
Proof.
  assert (contractCandidate Sample.everything
            {| Parameters := Some [Sample.parameter "c1" (OtherType "Int");
                                   Sample.parameter "c2" (OtherType "Int")] |})
    as Hcontract.
  { eexists _, _. repeat split; reflexivity. }
  split; [exact Hcontract|].
  unfold Sample.run.
  rewrite (proj1 (entry_point_precedence (Sample.prepareProgram Sample.everything)
                    Sample.prepareChecker Sample.convertType Sample.qualifiedString
                    Sample.newInterpreter Sample.parseLiteral "file.cdc" []
                    ["1"; "2"]) _ Hcontract).
  reflexivity.
Defined.

Lemma no_entry_point_no_error_witness :
  Sample.run Sample.noEntryPoint ["1"] = Return (Some []) None.
Proof.
  apply (no_entry_point_no_error (Sample.prepareProgram Sample.noEntryPoint)).
  - reflexivity.
  - simpl. discriminate.
  - simpl. discriminate.
Defined.

(** C1, as stated, fails: a program without entry point called with one raw
    argument returns the empty list and no error, not a count mismatch. *)
Lemma no_entry_point_extra_argument :
  FunctionEntryPointDeclaration Sample.noEntryPoint = None
  ∧ TransactionDeclarations Sample.noEntryPoint = []
  ∧ SoleContractDeclaration Sample.noEntryPoint = None
  ∧ Sample.run Sample.noEntryPoint ["1"] = Return (Some []) None
  ∧ ¬ ∃ got want,
        Sample.run Sample.noEntryPoint ["1"]
        = Return None (Some (ArgumentCountMismatch got want)).
Proof.
  repeat split. intros (got & want & Hrun). discriminate Hrun.
Qed.

Lemma coercion_positional_witness :
  Sample.run (Sample.script None) ["1"; "2"] = Return (Some []) None
  ∧ ∃ values,
      Sample.run
        (Sample.script (Some [Sample.parameter "to" AddressType;
                              Sample.parameter "msg" (OptionalType StringType)]))
        ["1234"; "hi"]
      = Return (Some values) None
      ∧ length values = 2
      ∧ values !! 0 = Some ("0x1234", AddressType)
      ∧ values !! 1 = Some (String dquote ("hi" +:+ dquote_string), StringType).
Proof.
  split.
  { apply (proj1 (coercion_positional
                    (Sample.prepareProgram (Sample.script None))
                    Sample.prepareChecker Sample.convertType Sample.qualifiedString
                    Sample.newInterpreter Sample.parseLiteral "file.cdc" []
                    ["1"; "2"])).
    reflexivity. }
  destruct (proj2 (proj2 (coercion_positional
                     (Sample.prepareProgram
                        (Sample.script
                           (Some [Sample.parameter "to" AddressType;
                                  Sample.parameter "msg" (OptionalType StringType)])))
                     Sample.prepareChecker Sample.convertType Sample.qualifiedString
                     Sample.newInterpreter Sample.parseLiteral "file.cdc" []
                     ["1234"; "hi"]) _ eq_refl) tt eq_refl eq_refl)
    as (values & Hrun & Hlen & Hall).
  - intros [|[|i]] p a Hp Ha; simpl in Hp, Ha; simplify_eq; eexists; reflexivity.
  - exists values. split; [exact Hrun|]. split; [exact Hlen|]. split.
    + destruct (Hall 0 _ _ eq_refl eq_refl) as (v & Hv & Hparse).
      injection Hparse as <-. exact Hv.
    + destruct (Hall 1 _ _ eq_refl eq_refl) as (v & Hv & Hparse).
      injection Hparse as <-. exact Hv.
Defined.

(** C2, as stated, fails twice: a [main] whose parameter list is the nil
    slice (length zero) called with one raw argument returns the empty list
    and no error, not a count mismatch; and with the right count the call
    returns no list when the literal parser rejects an argument. *)
Lemma nil_parameter_list_extra_argument :
  entryPointParameters (Sample.script None) = None
  ∧ len (entryPointParameters (Sample.script None)) = 0
  ∧ Sample.run (Sample.script None) ["1"] = Return (Some []) None
  ∧ Sample.run (Sample.script None) ["1"]
    ≠ Return None (Some (ArgumentCountMismatch 1 0))
  ∧ Sample.run (Sample.script (Some [Sample.parameter "n" (OtherType "Int")]))
      [EmptyString]
    = Return None (Some (ArgumentTypeMismatch "n" "Int")).
Proof. repeat split. discriminate. Qed.

Lemma rejected_argument_type_mismatch_witness :
  Sample.run
    (Sample.script (Some [Sample.parameter "amount" (OptionalType (OtherType "UFix64"));
                          Sample.parameter "to" AddressType]))
    [EmptyString; "1234"]
  = Return None (Some (ArgumentTypeMismatch "amount" "UFix64")).
Proof.
  destruct (rejected_argument_type_mismatch
              (Sample.prepareProgram
                 (Sample.script
                    (Some [Sample.parameter "amount" (OptionalType (OtherType "UFix64"));
                           Sample.parameter "to" AddressType])))
              Sample.prepareChecker Sample.convertType Sample.qualifiedString
              Sample.newInterpreter Sample.parseLiteral "file.cdc" []
              [EmptyString; "1234"] _ tt 0
              (Sample.parameter "amount" (OptionalType (OtherType "UFix64")))
              EmptyString "unexpected end of input"
              eq_refl eq_refl eq_refl eq_refl eq_refl eq_refl)
    as (j & p' & a' & e' & Hle & Hp' & Ha' & _ & _ & _ & Hrun).
  destruct j as [|j]; [|lia].
  injection Hp' as <-. exact Hrun.
Defined.

Lemma engine_success_sound_witness :
  Sample.run (Sample.script (Some [Sample.parameter "to" AddressType])) ["1234"]
  = Return (Some [("0x1234", AddressType)]) None
  ∧ ∃ parameterList,
      entryPointParameters (Sample.script (Some [Sample.parameter "to" AddressType]))
      = Some parameterList
      ∧ length parameterList = 1.
Proof.
  split; [reflexivity|].
  destruct (engine_success_sound
              (Sample.prepareProgram
                 (Sample.script (Some [Sample.parameter "to" AddressType])))
              Sample.prepareChecker Sample.convertType Sample.qualifiedString
              Sample.newInterpreter Sample.parseLiteral "file.cdc" [] ["1234"]
              [("0x1234", AddressType)] eq_refl)
    as [[Hnone _]|(parameterList & inter & Hlist & _ & Hlength & _)].
  - discriminate Hnone.
  - exists parameterList. split; [exact Hlist | exact Hlength].
Defined.

Lemma rewriteArgument_normal_form_witness :
  leafType (OptionalType AddressType) = AddressType
  ∧ strings_Contains (rewriteArgument (OptionalType AddressType) "1234").1 "0x" = true.
Proof.
  split; [reflexivity|].
  apply (proj1 (rewriteArgument_normal_form (OptionalType AddressType) "1234")).
  reflexivity.
Defined.

Lemma other_argument_unchanged_witness :
  rewriteArgument (OptionalType (SimpleType "Bool")) "true"
  = ("true", SimpleType "Bool").
Proof.
  apply (other_argument_unchanged (OptionalType (SimpleType "Bool")) "true").
  - simpl. discriminate.
  - simpl. discriminate.
Defined.


(** ** The contract configuration *)

Section ConfigProperties.

Context (DefaultNetwork : string).

Local Abbreviation Decode := (transformToConfig DefaultNetwork).
Local Abbreviation Encode := (transformContractsToJSON DefaultNetwork).

(** *** Decode *)

Lemma decodeEntry_name (name : string) (entry : jsonContract) (c : Contract) :
  c ∈ decodeEntry DefaultNetwork name entry → Name c = name.
Proof.
  destruct entry as [path|source aliases]; simpl.
  - by intros ->%list_elem_of_singleton.
  - case_decide.
    + by intros ->%list_elem_of_singleton.
    + by intros (na & -> & _)%list_elem_of_fmap.
Qed.

Lemma decodeEntry_NoDup (name : string) (entry : jsonContract) :
  NoDup (decodeEntry DefaultNetwork name entry).
Proof.
  destruct entry as [path|source aliases]; simpl.
  - apply NoDup_singleton.
  - case_decide; [apply NoDup_singleton|].
    apply NoDup_fmap_2_strong; [|apply NoDup_map_to_list].
    intros [n1 a1] [n2 a2] _ _ Heq. by simplify_eq/=.
Qed.

Lemma transformToConfig_elem (raw : gmap string jsonContract) (c : Contract) :
  c ∈ Decode raw
  ↔ ∃ name entry, raw !! name = Some entry
                  ∧ c ∈ decodeEntry DefaultNetwork name entry.
Proof.
  unfold transformToConfig. rewrite list_elem_of_bind. split.
  - intros ([name entry] & Hc & Hentry%elem_of_map_to_list). eauto.
  - intros (name & entry & Hentry & Hc). exists (name, entry).
    by rewrite elem_of_map_to_list.
Qed.

Lemma transformToConfig_NoDup (raw : gmap string jsonContract) :
  NoDup (Decode raw).
Proof.
  apply NoDup_bind; [|intros; apply decodeEntry_NoDup|apply NoDup_map_to_list].
  intros [n1 e1] [n2 e2] c H1%elem_of_map_to_list H2%elem_of_map_to_list Hc1 Hc2.
  apply decodeEntry_name in Hc1, Hc2. simpl in *. subst. congruence.
Qed.

(** The records of one name come from the entry of that name. *)
Lemma transformToConfig_named (raw : gmap string jsonContract) (name : string)
    (entry : jsonContract) (c : Contract) :
  raw !! name = Some entry →
  c ∈ Decode raw ∧ Name c = name ↔ c ∈ decodeEntry DefaultNetwork name entry.
Proof.
  intros Hentry. rewrite transformToConfig_elem. split.
  - intros [(name' & entry' & Hentry' & Hc) Hname].
    pose proof (decodeEntry_name _ _ _ Hc). by simplify_eq.
  - intros Hc. split; [eauto | by eapply decodeEntry_name].
Qed.

(** *** Encode *)

Lemma contractNames_elem (contracts : list Contract) (name : string) :
  name ∈ contractNames contracts ↔ ∃ c, c ∈ contracts ∧ Name c = name.
Proof.
  unfold contractNames. rewrite elem_of_remove_dups, list_elem_of_fmap.
  split; intros (c & H1 & H2); eauto.
Qed.

Lemma contractGroup_elem (contracts : list Contract) (name : string) (c : Contract) :
  c ∈ contractGroup name contracts ↔ c ∈ contracts ∧ Name c = name.
Proof. unfold contractGroup. rewrite list_elem_of_filter. tauto. Qed.

(** A group encodes to no entry exactly when it is empty or holds two
    locations. *)
Lemma encodeGroup_None (group : list Contract) :
  encodeGroup DefaultNetwork group = None
  ↔ group = []
    ∨ ∃ c1 c2, c1 ∈ group ∧ c2 ∈ group ∧ Location c1 ≠ Location c2.
Proof.
  destruct group as [|c group']; simpl; [naive_solver|].
  split.
  - repeat case_bool_decide; try done. intros _. right.
    match goal with H : ¬ Forall _ _ |- _ =>
      apply not_Forall_Exists in H; [|apply _];
      apply Exists_exists in H as (c' & Hc' & Hloc) end.
    exists c', c. repeat split; [by right | by left | done].
  - intros [?|(c1 & c2 & H1 & H2 & Hloc)]; [done|].
    rewrite bool_decide_eq_false_2.
    + rewrite bool_decide_eq_false_2; [done|].
      rewrite Forall_forall. intros Hall. apply Hloc.
      apply elem_of_cons in H1 as [->|H1], H2 as [->|H2];
        rewrite ?(Hall _ H1), ?(Hall _ H2); done.
    + intros (-> & _). apply Hloc.
      apply list_elem_of_singleton in H1, H2. congruence.
Qed.

(** What the successful encoding holds under each name. *)
Lemma mapM_entries {A : Type} (f : string → option A) (names : list string)
    (entries : list (string * A)) :
  mapM (λ name, pair name <$> f name) names = Some entries →
  entries.*1 = names
  ∧ ∀ name entry, (name, entry) ∈ entries ↔ name ∈ names ∧ f name = Some entry.
Proof.
  intros Hall%mapM_Some_1.
  induction Hall as [|name [name' entry] names entries Hentry _ [IHfst IH]].
  - split; [done|]. intros name entry. rewrite !elem_of_nil. tauto.
  - apply fmap_Some in Hentry as (entry' & Hf & [= -> ->]).
    split; [by rewrite fmap_cons, IHfst|].
    intros n e. rewrite !elem_of_cons, IH. split.
    + intros [[= -> ->]|[? ?]]; eauto.
    + intros [[->|?] Hn]; [left; congruence | eauto].
Qed.

Lemma transformContractsToJSON_lookup (contracts : list Contract)
    (raw : gmap string jsonContract) (name : string) (entry : jsonContract) :
  Encode contracts = inr raw →
  raw !! name = Some entry
  ↔ name ∈ contractNames contracts
    ∧ encodeGroup DefaultNetwork (contractGroup name contracts) = Some entry.
Proof.
  unfold transformContractsToJSON.
  destruct (mapM _ _) as [entries|] eqn:Hentries; [|done].
  intros [= <-]. apply mapM_entries in Hentries as [Hfst Hin].
  rewrite <- Hin. symmetry. apply elem_of_list_to_map.
  rewrite Hfst. apply NoDup_remove_dups.
Qed.

Lemma transformContractsToJSON_inl (contracts : list Contract) (err : config_error) :
  Encode contracts = inl err
  ↔ err = InconsistentContractSource
    ∧ ∃ c1 c2, c1 ∈ contracts ∧ c2 ∈ contracts
               ∧ Name c1 = Name c2 ∧ Location c1 ≠ Location c2.
Proof.
  unfold transformContractsToJSON.
  destruct (mapM _ _) as [entries|] eqn:Hentries.
  - split; [done|]. intros [_ (c1 & c2 & H1 & H2 & Hname & Hloc)].
    assert (is_Some (mapM (λ name, pair name <$>
                             encodeGroup DefaultNetwork (contractGroup name contracts))
                          (contractNames contracts))) as Hsome by eauto.
    apply mapM_is_Some_1 in Hsome. rewrite Forall_forall in Hsome.
    destruct (Hsome (Name c1)) as [entry Hentry].
    { apply contractNames_elem. eauto. }
    simpl in Hentry. apply fmap_Some in Hentry as (e & Hnone & _).
    assert (encodeGroup DefaultNetwork (contractGroup (Name c1) contracts) = None).
    { apply encodeGroup_None. right. exists c1, c2.
      by rewrite !contractGroup_elem. }
    congruence.
  - split; [|by intros [-> _]]. intros [= <-]. split; [done|].
    apply mapM_None_1, Exists_exists in Hentries as (name & Hname & Hnone).
    apply fmap_None, encodeGroup_None in Hnone as [Hempty|(c1 & c2 & H1 & H2 & Hloc)].
    + apply contractNames_elem in Hname as (c & Hc & Hn).
      assert (c ∈ contractGroup name contracts) as Hin
        by by apply contractGroup_elem.
      rewrite Hempty in Hin. by apply elem_of_nil in Hin.
    + apply contractGroup_elem in H1 as [H1 Hn1], H2 as [H2 Hn2].
      exists c1, c2. repeat split; try done. congruence.
Qed.

Lemma filter_all {A : Type} (P : A → Prop) `{!∀ x, Decision (P x)} (l : list A) :
  (∀ x, x ∈ l → P x) → filter P l = l.
Proof.
  induction l as [|x l IH]; intros Hall; [done|].
  rewrite filter_cons_True by (apply Hall; by left).
  rewrite IH; [done|]. intros y Hy. apply Hall. by right.
Qed.

(** *** Lookups *)

Lemma ByNameAndNetwork_exact (contracts : list Contract) (name network : string)
    (c : Contract) :
  c ∈ contracts → Name c = name → Network c = network →
  (∀ c', c' ∈ contracts → Name c' = name → Network c' = network → c' = c) →
  ByNameAndNetwork contracts name network = inr c.
Proof.
  intros Hc Hname Hnetwork Honly. unfold ByNameAndNetwork.
  destruct (list_find_elem_of (λ c, Network c = network ∧ Name c = name) contracts c)
    as [[i c'] Hfind]; [done..|].
  rewrite Hfind. apply list_find_Some in Hfind as (Hi & [Hnet Hn] & _).
  f_equal. apply Honly; [by eapply list_elem_of_lookup_2|done..].
Qed.

Lemma ByNameAndNetwork_fallback (contracts : list Contract) (name network : string)
    (c : Contract) :
  c ∈ contracts → Name c = name → Network c ≠ network →
  (∀ c', c' ∈ contracts → Name c' = name → c' = c) →
  ByNameAndNetwork contracts name network
  = inr {| Name := name; Location := Location c; Network := network;
           Alias := EmptyString |}.
Proof.
  intros Hc Hname Hnetwork Honly. unfold ByNameAndNetwork, ByName.
  assert (list_find (λ c, Network c = network ∧ Name c = name) contracts = None)
    as ->.
  { apply list_find_None, Forall_forall. intros c' Hc' [Hnet Hn].
    apply Hnetwork. by rewrite <- (Honly c' Hc' Hn). }
  destruct (list_find_elem_of (λ c, Name c = name) contracts c)
    as [[i c'] Hfind]; [done..|].
  rewrite Hfind. apply list_find_Some in Hfind as (Hi & Hn & _).
  rewrite (Honly c'); [by rewrite Hname|by eapply list_elem_of_lookup_2|done].
Qed.

Lemma ByNameAndNetwork_NotFound (contracts : list Contract) (name network : string) :
  ByNameAndNetwork contracts name network = inl NotFound
  ↔ ∀ c, c ∈ contracts → Name c ≠ name.
Proof.
  unfold ByNameAndNetwork, ByName. split.
  - intros Hnot c Hc Hname.
    destruct (list_find_elem_of (λ c, Name c = name) contracts c)
      as [[i c'] Hfind]; [done..|].
    rewrite Hfind in Hnot. by repeat case_match.
  - intros Hnone.
    assert (list_find (λ c, Network c = network ∧ Name c = name) contracts = None)
      as ->.
    { apply list_find_None, Forall_forall. intros c Hc [_ Hn]. by eapply Hnone. }
    assert (list_find (λ c, Name c = name) contracts = None) as ->; [|done].
    apply list_find_None, Forall_forall. intros c Hc Hn. by eapply Hnone.
Qed.

(** C4, amended: in a configuration that declares KittyItemsMarket in the
    complex form, with a source and the one alias of testnet, the lookup of
    KittyItemsMarket on testnet gives the record whose location is the source
    and whose alias is that alias; the lookup of the same name on any other
    network succeeds as well, with a record for the asked network whose
    location is the source and whose alias is empty. *)
Theorem KittyItemsMarket_by_network (raw : gmap string jsonContract)
    (source address : string) :
  raw !! "KittyItemsMarket" = Some (Complex source {[ "testnet" := address ]}) →
  ByNameAndNetwork (Decode raw) "KittyItemsMarket" "testnet"
  = inr {| Name := "KittyItemsMarket"; Location := source;
           Network := "testnet"; Alias := address |}
  ∧ ∀ network, network ≠ "testnet" →
      ByNameAndNetwork (Decode raw) "KittyItemsMarket" network
      = inr {| Name := "KittyItemsMarket"; Location := source;
               Network := network; Alias := EmptyString |}.
Proof.
  intros Hentry.
  pose proof (λ c, transformToConfig_named raw _ _ c Hentry) as Hnamed.
  simpl in Hnamed.
  rewrite decide_False, map_to_list_singleton in Hnamed
    by apply insert_non_empty.
  simpl in Hnamed. setoid_rewrite list_elem_of_singleton in Hnamed.
  split.
  - apply ByNameAndNetwork_exact; [by apply Hnamed|done|done|].
    intros c' Hc' Hname _. by apply Hnamed.
  - intros network Hnetwork.
    rewrite (ByNameAndNetwork_fallback _ _ _
               {| Name := "KittyItemsMarket"; Location := source;
                  Network := "testnet"; Alias := address |});
      [done | by apply Hnamed | done | simpl; congruence |].
    intros c' Hc' Hname. by apply Hnamed.
Qed.

End ConfigProperties.

(** *** The tests of the repository, run on the model *)

Example Test_ConfigContractsSimple :
  let contracts := transformToConfig SampleConfig.defaultNetwork SampleConfig.simple in
  SampleConfig.field Location (ByName contracts "KittyItems")
  = Some "./cadence/kittyItems/contracts/KittyItems.cdc"
  ∧ SampleConfig.field Location (ByName contracts "KittyItemsMarket")
    = Some "./cadence/kittyItems/contracts/KittyItemsMarket.cdc".
Proof. vm_compute. done. Qed.

Example Test_ConfigContractsComplex :
  let contracts := transformToConfig SampleConfig.defaultNetwork SampleConfig.complex in
  length contracts = 2
  ∧ SampleConfig.field Location (ByName contracts "KittyItems")
    = Some "./cadence/kittyItems/contracts/KittyItems.cdc"
  ∧ SampleConfig.field Location (ByNameAndNetwork contracts "KittyItemsMarket" "emulator")
    = Some "./cadence/kittyItemsMarket/contracts/KittyItemsMarket.cdc"
  ∧ SampleConfig.field Location (ByNameAndNetwork contracts "KittyItemsMarket" "testnet")
    = Some "./cadence/kittyItemsMarket/contracts/KittyItemsMarket.cdc"
  ∧ SampleConfig.field Alias (ByNameAndNetwork contracts "KittyItems" "emulator")
    = Some EmptyString
  ∧ SampleConfig.field Alias (ByNameAndNetwork contracts "KittyItems" "testnet")
    = Some EmptyString
  ∧ SampleConfig.field Alias (ByNameAndNetwork contracts "KittyItemsMarket" "testnet")
    = Some "f8d6e0586b0a20c7"
  ∧ SampleConfig.field Alias (ByNameAndNetwork contracts "KittyItemsMarket" "emulator")
    = Some EmptyString.
Proof. vm_compute. done. Qed.

Example Test_ConfigContractsAliases :
  let contracts := transformToConfig SampleConfig.defaultNetwork SampleConfig.aliased in
  let fungibleToken := ByName contracts "FungibleToken" in
  let fungibleTokenEmulator := ByNameAndNetwork contracts "FungibleToken" "emulator" in
  let fungibleTokenTestnet := ByNameAndNetwork contracts "FungibleToken" "testnet" in
  let kibbleTestnet := ByNameAndNetwork contracts "Kibble" "testnet" in
  let kibbleEmulator := ByNameAndNetwork contracts "Kibble" "emulator" in
  let nftTestnet := ByNameAndNetwork contracts "NonFungibleToken" "testnet" in
  SampleConfig.field Network fungibleToken = Some "emulator"
  ∧ SampleConfig.field Alias fungibleToken = Some "e5a8b7f23e8b548f"
  ∧ SampleConfig.field Location fungibleToken
    = Some "../hungry-kitties/cadence/contracts/FungibleToken.cdc"
  ∧ SampleConfig.field Alias fungibleTokenEmulator = Some "e5a8b7f23e8b548f"
  ∧ SampleConfig.field Alias fungibleTokenTestnet = Some EmptyString
  ∧ SampleConfig.field Network fungibleTokenTestnet = Some "testnet"
  ∧ SampleConfig.field Location fungibleTokenTestnet
    = Some "../hungry-kitties/cadence/contracts/FungibleToken.cdc"
  ∧ SampleConfig.field Location fungibleTokenEmulator
    = Some "../hungry-kitties/cadence/contracts/FungibleToken.cdc"
  ∧ SampleConfig.field Network kibbleTestnet = Some "testnet"
  ∧ SampleConfig.field Alias kibbleTestnet = Some "ead892083b3e2c6c"
  ∧ SampleConfig.field Alias kibbleEmulator = Some "f8d6e0586b0a20c7"
  ∧ SampleConfig.field Location kibbleTestnet
    = Some "../hungry-kitties/cadence/contracts/Kibble.cdc"
  ∧ SampleConfig.field Network nftTestnet = Some "testnet"
  ∧ SampleConfig.field Alias nftTestnet = Some EmptyString
  ∧ SampleConfig.field Location nftTestnet
    = Some "../hungry-kitties/cadence/contracts/NonFungibleToken.cdc".
Proof. vm_compute. done. Qed.

Example Test_TransformContractToJSON :
  transformContractsToJSON SampleConfig.defaultNetwork
    (transformToConfig SampleConfig.defaultNetwork SampleConfig.market)
  = inr SampleConfig.market.
Proof. vm_compute. done. Qed.

Example Test_TransformComplexContractToJSON :
  transformContractsToJSON SampleConfig.defaultNetwork
    (transformToConfig SampleConfig.defaultNetwork SampleConfig.kibble)
  = inr SampleConfig.kibble.
Proof. vm_compute. done. Qed.

Example Test_GetContractsForNetworkComplex :
  SampleConfig.field Name (ByName SampleConfig.generateComplexConfig "KittyItems")
  = Some "KittyItems"
  ∧ SampleConfig.field Location
      (ByName SampleConfig.generateComplexConfig "KittyItemsMarket")
    = Some "./cadence/kittyItemsMarket/contracts/KittyItemsMarket.cdc".
Proof. vm_compute. done. Qed.

Example Test_GetContractsByNameAndNetworkComplex :
  SampleConfig.field Location
    (ByNameAndNetwork SampleConfig.generateComplexConfig "KittyItemsMarket" "testnet")
  = Some "0x123123123".
Proof. vm_compute. done. Qed.

(** *** The lookups on a concrete collection *)

Lemma KittyItemsMarket_by_network_witness :
  SampleConfig.scenario !! "KittyItemsMarket"
  = Some (Complex "./cadence/kittyItemsMarket/contracts/KittyItemsMarket.cdc"
                  {[ "testnet" := "0x123123123" ]})
  ∧ ByNameAndNetwork
      (transformToConfig SampleConfig.defaultNetwork SampleConfig.scenario)
      "KittyItemsMarket" "testnet"
    = inr {| Name := "KittyItemsMarket";
             Location := "./cadence/kittyItemsMarket/contracts/KittyItemsMarket.cdc";
             Network := "testnet"; Alias := "0x123123123" |}.
Proof.
  split; [reflexivity|].
  apply (KittyItemsMarket_by_network SampleConfig.defaultNetwork SampleConfig.scenario).
  reflexivity.
Defined.

(** C4, as stated, fails: the decoded scenario has no record of
    KittyItemsMarket on emulator, and the lookup there is not NotFound: it
    gives a record with the source as location and an empty alias, as
    [Test_ConfigContractsComplex] asserts. *)
Lemma KittyItemsMarket_other_network_found :
  let contracts :=
    transformToConfig SampleConfig.defaultNetwork SampleConfig.scenario in
  contracts
  = [ {| Name := "KittyItemsMarket";
         Location := "./cadence/kittyItemsMarket/contracts/KittyItemsMarket.cdc";
         Network := "testnet"; Alias := "0x123123123" |} ]
  ∧ ByNameAndNetwork contracts "KittyItemsMarket" "emulator"
    = inr {| Name := "KittyItemsMarket";
             Location := "./cadence/kittyItemsMarket/contracts/KittyItemsMarket.cdc";
             Network := "emulator"; Alias := EmptyString |}
  ∧ ByNameAndNetwork contracts "KittyItemsMarket" "emulator" ≠ inl NotFound.
Proof. vm_compute. repeat split. discriminate. Qed.

(** *** More on the contract configuration *)

Section ConfigExtras.

Context (DefaultNetwork : string).

Local Abbreviation Decode := (transformToConfig DefaultNetwork).
Local Abbreviation Encode := (transformContractsToJSON DefaultNetwork).

Lemma decodeEntry_location (name : string) (entry : jsonContract) (c : Contract) :
  c ∈ decodeEntry DefaultNetwork name entry →
  Location c = match entry with Simple path => path | Complex source _ => source end.
Proof.
  destruct entry as [path|source aliases]; simpl.
  - by intros ->%list_elem_of_singleton.
  - case_decide.
    + by intros ->%list_elem_of_singleton.
    + by intros (na & -> & _)%list_elem_of_fmap.
Qed.

Lemma decodeEntry_nonempty (name : string) (entry : jsonContract) :
  decodeEntry DefaultNetwork name entry ≠ [].
Proof.
  destruct entry as [path|source aliases]; simpl; [done|].
  case_decide as Hempty; [done|]. intros Hnil%fmap_nil_inv.
  by apply map_to_list_empty_iff in Hnil.
Qed.

Lemma filter_none {A : Type} (P : A → Prop) `{!∀ x, Decision (P x)} (l : list A) :
  (∀ x, x ∈ l → ¬ P x) → filter P l = [].
Proof.
  induction l as [|x l IH]; intros Hnone; [done|].
  rewrite filter_cons_False by (apply Hnone; by left).
  apply IH. intros y Hy. apply Hnone. by right.
Qed.

(** The records of one name, in the decoded collection, are the records of
    the entry of that name, in their order. *)
Lemma contractGroup_entries (entries : list (string * jsonContract)) (name : string) :
  NoDup entries.*1 →
  contractGroup name (entries ≫= λ ne, decodeEntry DefaultNetwork ne.1 ne.2)
  = match list_to_map (M := gmap string jsonContract) entries !! name with
    | Some entry => decodeEntry DefaultNetwork name entry
    | None => []
    end.
Proof.
  unfold contractGroup.
  induction entries as [|[name' entry'] entries IH]; [done|].
  intros [Hfresh Hnodup]%NoDup_cons. simpl in Hfresh.
  rewrite bind_cons, filter_app, IH by done. simpl.
  destruct (decide (name' = name)) as [->|Hne].
  - rewrite lookup_insert_eq.
    rewrite (proj1 (not_elem_of_list_to_map _ _)) by done.
    rewrite app_nil_r. apply filter_all. intros c Hc. by eapply decodeEntry_name.
  - rewrite lookup_insert_ne by done.
    rewrite filter_none; [done|].
    intros c Hc%decodeEntry_name. congruence.
Qed.

Lemma contractGroup_decoded (raw : gmap string jsonContract) (name : string) :
  contractGroup name (Decode raw)
  = match raw !! name with
    | Some entry => decodeEntry DefaultNetwork name entry
    | None => []
    end.
Proof.
  unfold transformToConfig.
  rewrite contractGroup_entries by apply NoDup_fst_map_to_list.
  by rewrite list_to_map_to_list.
Qed.

(** An entry is canonical when its complex form has at least one alias and
    no empty one. *)
Lemma encodeGroup_decodeEntry (name : string) (entry : jsonContract) :
  (∀ source aliases, entry = Complex source aliases →
     aliases ≠ ∅ ∧ ∀ network alias, aliases !! network = Some alias →
                                     alias ≠ EmptyString) →
  encodeGroup DefaultNetwork (decodeEntry DefaultNetwork name entry) = Some entry.
Proof.
  intros Hcanonical. destruct entry as [path|source aliases]; simpl.
  - by rewrite bool_decide_eq_true_2.
  - destruct (Hcanonical source aliases eq_refl) as [Hnonempty Haliases].
    rewrite decide_False by done.
    assert (∀ na, na ∈ map_to_list aliases → na.2 ≠ EmptyString) as Hall.
    { intros [network alias] Hin%elem_of_map_to_list. by eapply Haliases. }
    assert (groupAliases
              ((λ na : string * string,
                  {| Name := name; Location := source; Network := na.1;
                     Alias := na.2 |}) <$> map_to_list aliases) = aliases) as Hgroup.
    { unfold groupAliases. rewrite filter_all.
      - rewrite <- list_fmap_compose.
        rewrite (list_fmap_ext _ id);
          [by rewrite list_fmap_id, list_to_map_to_list|].
        by intros i [network alias] _.
      - intros c (na & -> & Hna)%list_elem_of_fmap. by apply Hall. }
    destruct (map_to_list aliases) as [|[network alias] rest] eqn:Hlist.
    { by apply map_to_list_empty_iff in Hlist. }
    rewrite fmap_cons in Hgroup |- *.
    cbn [encodeGroup].
    rewrite bool_decide_eq_false_2.
    + rewrite bool_decide_eq_true_2.
      * exact (f_equal (λ a, Some (Complex source a)) Hgroup).
      * apply Forall_forall. by intros c (na & -> & _)%list_elem_of_fmap.
    + intros (_ & _ & Halias). simpl in Halias.
      apply (Hall (network, alias)); [by left|done].
Qed.

(** X17: encoding what was decoded gives the persisted form back, for every
    persisted form whose complex entries have at least one alias and no
    empty alias; this is what [Test_TransformContractToJSON] and
    [Test_TransformComplexContractToJSON] check on two forms. *)
Theorem json_round_trip (raw : gmap string jsonContract) :
  (∀ name source aliases,
     raw !! name = Some (Complex source aliases) →
     aliases ≠ ∅ ∧ ∀ network alias, aliases !! network = Some alias →
                                     alias ≠ EmptyString) →
  Encode (Decode raw) = inr raw.
Proof.
  intros Hcanonical.
  assert (∀ name entry, raw !! name = Some entry →
            encodeGroup DefaultNetwork (contractGroup name (Decode raw)) = Some entry)
    as Hgroup.
  { intros name entry Hentry. rewrite contractGroup_decoded, Hentry.
    apply encodeGroup_decodeEntry. intros source aliases ->. by eapply Hcanonical. }
  assert (∀ name, name ∈ contractNames (Decode raw) ↔ is_Some (raw !! name))
    as Hnames.
  { intros name. rewrite contractNames_elem. split.
    - intros (c & (name' & entry & Hentry & Hc)%transformToConfig_elem & Hname).
      apply decodeEntry_name in Hc. simplify_eq. by eexists.
    - intros [entry Hentry].
      destruct (decodeEntry DefaultNetwork name entry) as [|c rest] eqn:Hdecode.
      { by apply decodeEntry_nonempty in Hdecode. }
      exists c. apply (transformToConfig_named _ raw name entry c Hentry).
      rewrite Hdecode. by left. }
  destruct (Encode (Decode raw)) as [err|encoded] eqn:Hencode.
  - apply transformContractsToJSON_inl in Hencode
      as [_ (c1 & c2 & H1 & H2 & Hname & Hloc)].
    apply transformToConfig_elem in H1 as (n1 & e1 & He1 & H1).
    apply transformToConfig_elem in H2 as (n2 & e2 & He2 & H2).
    pose proof (decodeEntry_name _ _ _ _ H1). pose proof (decodeEntry_name _ _ _ _ H2).
    assert (n1 = n2) as <- by congruence.
    assert (e1 = e2) as <- by congruence.
    apply decodeEntry_location in H1, H2. destruct Hloc. congruence.
  - f_equal. apply map_eq. intros name.
    destruct (raw !! name) as [entry|] eqn:Hentry.
    + apply (transformContractsToJSON_lookup _ _ _ _ _ Hencode). split.
      * apply Hnames. by eexists.
      * by apply Hgroup.
    + destruct (encoded !! name) as [entry|] eqn:Hencoded; [|done].
      apply (transformContractsToJSON_lookup _ _ _ _ _ Hencode) in Hencoded
        as [[? Hsome]%Hnames _]. congruence.
Qed.

(** X18: a lookup by name and network that succeeds gives a record of that
    name for that network, and the lookup fails, with NotFound, exactly when
    the lookup by name alone fails: when no record has the name. *)
Theorem ByNameAndNetwork_result (contracts : list Contract) (name network : string) :
  (∀ c, ByNameAndNetwork contracts name network = inr c →
        Name c = name ∧ Network c = network)
  ∧ (∀ err, ByNameAndNetwork contracts name network = inl err
            ↔ ByName contracts name = inl err)
  ∧ (∀ err, ByName contracts name = inl err
            ↔ err = NotFound ∧ ∀ c, c ∈ contracts → Name c ≠ name).
Proof.
  unfold ByNameAndNetwork, ByName. split; [|split].
  - intros c.
    destruct (list_find (λ c, Network c = network ∧ Name c = name) contracts)
      as [[i c']|] eqn:Hexact.
    + intros [= <-]. by apply list_find_Some in Hexact as (_ & [? ?] & _).
    + destruct (list_find (λ c, Name c = name) contracts) as [[i c']|] eqn:Hname;
        [|done].
      intros [= <-]. simpl. by apply list_find_Some in Hname as (_ & ? & _).
  - intros err.
    destruct (list_find (λ c, Network c = network ∧ Name c = name) contracts)
      as [[i c']|] eqn:Hexact.
    + apply list_find_Some in Hexact as (Hi & [_ Hname] & _).
      destruct (list_find_elem_of (λ c, Name c = name) contracts c')
        as [[j c''] ->]; [by eapply list_elem_of_lookup_2|done|done].
    + by destruct (list_find (λ c, Name c = name) contracts) as [[i c']|].
  - intros err.
    destruct (list_find (λ c, Name c = name) contracts) as [[i c']|] eqn:Hname.
    + split; [done|]. intros [_ Hnone].
      apply list_find_Some in Hname as (Hi & Hn & _).
      destruct (Hnone c'); [by eapply list_elem_of_lookup_2|done].
    + split; [|by intros [-> _]]. intros [= <-]. split; [done|].
      apply list_find_None in Hname. rewrite Forall_forall in Hname. done.
Qed.

(** X19: the lookup by name gives the first record of that name in the
    order of the collection, whatever its network. *)
Theorem ByName_first (before after : list Contract) (c : Contract) :
  (∀ c', c' ∈ before → Name c' ≠ Name c) →
  ByName (before ++ c :: after) (Name c) = inr c.
Proof.
  intros Hbefore. unfold ByName.
  assert (list_find (λ c', Name c' = Name c) (before ++ c :: after)
          = Some (length before, c)) as ->; [|done].
  apply list_find_Some. split; [|split; [done|]].
  - by rewrite lookup_app_r, Nat.sub_diag by lia.
  - intros j y Hj Hlt. rewrite lookup_app_l in Hj by done.
    apply Hbefore. by eapply list_elem_of_lookup_2.
Qed.

End ConfigExtras.

Lemma json_round_trip_witness :
  transformContractsToJSON SampleConfig.defaultNetwork
    (transformToConfig SampleConfig.defaultNetwork SampleConfig.market)
  = inr SampleConfig.market.
Proof.
  apply json_round_trip. intros name source aliases Hentry.
  unfold SampleConfig.market in Hentry.
  rewrite lookup_insert in Hentry. case_decide; [discriminate Hentry|].
  rewrite lookup_singleton in Hentry. case_decide; [|discriminate Hentry].
  injection Hentry as <- <-. split.
  - apply (bool_decide_eq_false_1 _). vm_compute. reflexivity.
  - intros network alias Halias.
    rewrite lookup_singleton in Halias. case_decide; [|discriminate Halias].
    injection Halias as <-. discriminate.
Defined.

Lemma ByNameAndNetwork_result_witness :
  ByNameAndNetwork SampleConfig.generateComplexConfig "KittyItemsMarket" "mainnet"
  = inr {| Name := "KittyItemsMarket";
           Location := "./cadence/kittyItemsMarket/contracts/KittyItemsMarket.cdc";
           Network := "mainnet"; Alias := EmptyString |}
  ∧ Network {| Name := "KittyItemsMarket";
               Location := "./cadence/kittyItemsMarket/contracts/KittyItemsMarket.cdc";
               Network := "mainnet"; Alias := EmptyString |} = "mainnet".
Proof.
  split; [reflexivity|].
  apply (proj1 (ByNameAndNetwork_result SampleConfig.generateComplexConfig
                  "KittyItemsMarket" "mainnet")).
  reflexivity.
Defined.

Lemma ByName_first_witness :
  ByName SampleConfig.generateComplexConfig "KittyItemsMarket"
  = inr {| Name := "KittyItemsMarket";
           Location := "./cadence/kittyItemsMarket/contracts/KittyItemsMarket.cdc";
           Network := "emulator"; Alias := EmptyString |}.
Proof.
  apply (ByName_first (take 4 SampleConfig.generateComplexConfig)
           (drop 5 SampleConfig.generateComplexConfig)
           {| Name := "KittyItemsMarket";
              Location := "./cadence/kittyItemsMarket/contracts/KittyItemsMarket.cdc";
              Network := "emulator"; Alias := EmptyString |}).
  apply Forall_forall. apply (bool_decide_unpack _). vm_compute. reflexivity.
Defined.

(** ** The commands *)

Lemma string_drop_app (prefix s : string) :
  string_drop (String.length prefix) (prefix +:+ s) = s.
Proof. induction prefix as [|c prefix IH]; [done|]. by rewrite append_cons. Qed.

Lemma strings_TrimPrefix_app (prefix s : string) :
  strings_TrimPrefix (prefix +:+ s) prefix = s.
Proof.
  unfold strings_TrimPrefix, strings_HasPrefix.
  rewrite (proj2 (prefix_app prefix (prefix +:+ s))) by by eexists.
  apply string_drop_app.
Qed.

Example strings_TrimPrefix_examples :
  strings_TrimPrefix "0x07a8b433" "0x" = "07a8b433"
  ∧ strings_TrimPrefix "07a8b433" "0x" = "07a8b433"
  ∧ strings_TrimPrefix "0x0x07" "0x" = "0x07"
  ∧ strings_TrimPrefix "0" "0x" = "0".
Proof. repeat split. Qed.

Section CommandProperties.

Context {World ExternalError Code : Type} `{!EqDecision Code}.
Context {flow_Identifier flow_Transaction flow_TransactionResult : Type}.
Context {flow_Address PrivateKey http_Request http_Response StdoutLogger : Type}.
Context (flow_HexToID : string → flow_Identifier).
Context (flow_EmptyID : flow_Identifier).
Context (GetStatus :
  World → flow_Identifier → bool →
  World * ((flow_Transaction * flow_TransactionResult) + ExternalError)).
Context (status_Code : ExternalError → Code).
Context (codes_NotFound : Code).
Context (time_Sleep : World → Z → World).
Context (Info : StdoutLogger → string → StdoutLogger).
Context (SHA3_256_String ECDSA_P256_String : string).
Context (flow_AccountKeyWeightThreshold : Z).
Context (DefaultTestnetNetwork_Name : string).
Context (accountToken : string).
Context (json_Marshal : lilicoAccount → list Byte.byte + ExternalError).
Context (http_NewRequest :
  string → string → list Byte.byte → http_Request + ExternalError).
Context (Header_Add : http_Request → string → string → http_Request).
Context (client_Do : World → http_Request → World * (http_Response + ExternalError)).
Context (Body_Close : World → http_Response → World).
Context (io_ReadAll :
  World → http_Response → World * (list Byte.byte * option ExternalError)).
Context (json_Unmarshal :
  list Byte.byte → lilicoResponse → lilicoResponse * option ExternalError).
Context (PublicKey_String PrivateKey_String : PrivateKey → string).
Context (GetCreatedAddresses : flow_TransactionResult → list flow_Address).

Local Abbreviation getTransaction := (get flow_HexToID GetStatus).
Local Abbreviation poll :=
  (getAccountCreationResult GetStatus status_Code codes_NotFound time_Sleep).
Local Abbreviation rounds :=
  (notFoundRounds GetStatus status_Code codes_NotFound time_Sleep).
Local Abbreviation create :=
  (lilicoAccount_create flow_HexToID flow_EmptyID SHA3_256_String ECDSA_P256_String
     flow_AccountKeyWeightThreshold DefaultTestnetNetwork_Name accountToken
     json_Marshal http_NewRequest Header_Add client_Do Body_Close io_ReadAll
     json_Unmarshal).
Local Abbreviation createAccount AddToGitIgnore WriteFile :=
  (createNetworkAccount (flow_Address := flow_Address) flow_HexToID flow_EmptyID
     GetStatus status_Code codes_NotFound time_Sleep
     SHA3_256_String ECDSA_P256_String
     flow_AccountKeyWeightThreshold DefaultTestnetNetwork_Name accountToken
     json_Marshal http_NewRequest Header_Add client_Do Body_Close io_ReadAll
     json_Unmarshal PublicKey_String PrivateKey_String GetCreatedAddresses
     AddToGitIgnore WriteFile).

(** *** [get] *)

(** X8: [get] looks a transaction up by the same id whether the id is given
    with the prefix 0x or without it, and it reads its first argument only. *)
Theorem get_hex_prefix (getFlags : flagsGet) (w : World) (id : string)
    (rest rest' : list string) :
  strings_HasPrefix id "0x" = false →
  getTransaction getFlags w (("0x" +:+ id) :: rest)
  = getTransaction getFlags w (id :: rest').
Proof.
  intros Hprefix. unfold get. simpl.
  rewrite strings_TrimPrefix_app. unfold strings_TrimPrefix. by rewrite Hprefix.
Qed.

(** *** [outputList] *)

Lemma outputItems_messages (log : StdoutLogger) (numbered : bool) (items : list string) :
  ∀ n,
  outputItems Info log numbered n items
  = foldl Info log
      (imap (λ k item,
               (if numbered then " " +:+ fmt_d (n + k + 1) +:+ "." else " -")
               +:+ " " +:+ item) items).
Proof.
  revert log. induction items as [|item items IH]; intros log n; [done|].
  simpl. rewrite IH, Nat.add_0_r. f_equal. apply imap_ext.
  intros k item' _. simpl. by replace (n + S k + 1) with (S (n + k + 1)) by lia.
Qed.

(** X9: on a list with a first item, [outputList] logs that item followed
    by a colon, then one line for each further item, in order, starting with
    a dash or, when numbered, with the position counted from one, and then an
    empty line: one message more than there are items.  On the empty list it
    panics. *)
Theorem outputList_messages (log : StdoutLogger) (item0 : string)
    (items : list string) (numbered : bool) :
  let messages :=
    (item0 +:+ ":")
    :: imap (λ k item,
               (if numbered then " " +:+ fmt_d (k + 1) +:+ "." else " -")
               +:+ " " +:+ item) items
    ++ [EmptyString] in
  outputList Info log (item0 :: items) numbered = Some (foldl Info log messages)
  ∧ length messages = length (item0 :: items) + 1
  ∧ outputList Info log [] numbered = None.
Proof.
  intros messages. split; [|split; [|done]].
  - unfold outputList, messages.
    rewrite outputItems_messages. simpl. by rewrite foldl_snoc.
  - unfold messages. simpl. rewrite length_app, length_imap. simpl. lia.
Qed.

(** *** [getAccountCreationResult] *)

(** X10: when the first [k] polls answer NotFound and the next one answers
    anything else, the function returns that answer (the result, or the error
    as it is), after [k] sleeps of one second and [k + 1] polls; any number
    of calls above [k] is enough. *)
Theorem poll_first_answer (k fuel : nat) (w w' w'' : World) (id : flow_Identifier)
    (answer : (flow_Transaction * flow_TransactionResult) + ExternalError) :
  rounds k w id = Some w' →
  GetStatus w' id true = (w'', answer) →
  (∀ err, answer = inr err → status_Code err ≠ codes_NotFound) →
  k < fuel →
  poll fuel w id
  = Some (w'', match answer with
               | inl (_, result) => inl result
               | inr err => inr (External err)
               end).
Proof.
  revert fuel w. induction k as [|k IH]; intros fuel w Hrounds Hstatus Hanswer Hfuel;
    (destruct fuel as [|fuel]; [lia|]); simpl in *.
  - injection Hrounds as ->. rewrite Hstatus.
    destruct answer as [[t r]|err]; [done|].
    by rewrite decide_False by by apply Hanswer.
  - destruct (GetStatus w id true) as [w1 [[t r]|err]]; [done|].
    case_decide; [|done]. apply IH; [done..|lia].
Qed.

(** X11: an error that [getAccountCreationResult] returns is the error of a
    poll, handed on as it is, and it is never a NotFound error; and the
    function is still polling after [fuel] calls only when every one of them
    answered NotFound. *)
Theorem poll_never_NotFound (fuel : nat) (w : World) (id : flow_Identifier) :
  (∀ w' err, poll fuel w id = Some (w', inr err) →
     ∃ e, err = External e ∧ status_Code e ≠ codes_NotFound)
  ∧ (poll fuel w id = None → is_Some (rounds fuel w id)).
Proof.
  revert w. induction fuel as [|fuel IH]; intros w; simpl.
  - split; [done|]. intros _. by eexists.
  - destruct (GetStatus w id true) as [w1 [[t r]|e]]; [done|].
    case_decide as Hcode; [apply IH|].
    split; [|done]. intros w' err [= <- <-]. by exists e.
Qed.

(** *** [lilicoAccount.create] *)

(** X12: the call depends on the account through its public key only, and
    on the network only through whether its name is the name of the default
    testnet: the algorithms and the weight the caller has set are replaced
    before anything is sent, and every other network name selects the same
    endpoint. *)
Theorem create_public_key_and_testnet (l l' : lilicoAccount) (w : World)
    (network network' : string) :
  PublicKey l = PublicKey l' →
  (network = DefaultTestnetNetwork_Name ↔ network' = DefaultTestnetNetwork_Name) →
  create l w network = create l' w network'.
Proof.
  intros Hkey Hnetwork. unfold lilicoAccount_create. simpl. rewrite Hkey.
  assert (String.eqb network DefaultTestnetNetwork_Name
          = String.eqb network' DefaultTestnetNetwork_Name) as ->; [|done].
  destruct (String.eqb_spec network DefaultTestnetNetwork_Name) as [Heq|Hne],
           (String.eqb_spec network' DefaultTestnetNetwork_Name) as [Heq'|Hne'];
    try done.
  - destruct Hne'. by apply Hnetwork.
  - destruct Hne. by apply Hnetwork.
Qed.

(** X13: whatever happens, the call leaves the account with its public key
    and the fixed algorithms and weight; when it fails, the id it returns is
    [flow.EmptyID]. *)
Theorem create_defaults_and_EmptyID (l : lilicoAccount) (w : World) (network : string) :
  (create l w network).1.1
  = {| PublicKey := PublicKey l;
       SignatureAlgorithm := ECDSA_P256_String;
       HashAlgorithm := SHA3_256_String;
       Weight := flow_AccountKeyWeightThreshold |}
  ∧ ((create l w network).2.2 ≠ None → (create l w network).2.1 = flow_EmptyID).
Proof.
  unfold lilicoAccount_create. simpl.
  repeat (case_match; simpl; try done).
Qed.

(** *** [createNetworkAccount] *)

(** X14: the files are touched only once an address was created: when the
    network steps, if they succeed, give a result without created address,
    the call runs the same with any implementation of the update of
    .gitignore and of the writing of the key file, so neither is called. *)
Theorem createNetworkAccount_no_address_no_files
    (AddToGitIgnore AddToGitIgnore' : World → string → World * option ExternalError)
    (WriteFile WriteFile' : World → string → string → Z → World * option ExternalError)
    (fuel : nat) (w : World) (name : string) (key : PrivateKey)
    (privateFile : string) (network : config_Network) :
  (∀ l w1 id w2 result,
     create {| PublicKey := strings_TrimPrefix (PublicKey_String key) "0x";
               SignatureAlgorithm := EmptyString; HashAlgorithm := EmptyString;
               Weight := 0 |} w (Network_Name network)
     = (l, w1, (id, None)) →
     poll fuel w1 id = Some (w2, inl result) →
     GetCreatedAddresses result = []) →
  createAccount AddToGitIgnore WriteFile fuel w name key privateFile network
  = createAccount AddToGitIgnore' WriteFile' fuel w name key privateFile network.
Proof.
  intros Hnone. unfold createNetworkAccount.
  destruct (create _ w (Network_Name network)) as [[l w1] [id [err|]]]; [done|].
  specialize (Hnone l w1 id).
  destruct (poll fuel w1 id) as [[w2 [result|err]]|]; [|done..].
  by rewrite (Hnone w2 result).
Qed.

(** X15: the key file is written only after .gitignore was updated: when
    the update of .gitignore fails, the call runs the same with any
    implementation of the writing of the key file. *)
Theorem createNetworkAccount_gitignore_first
    (AddToGitIgnore : World → string → World * option ExternalError)
    (WriteFile WriteFile' : World → string → string → Z → World * option ExternalError)
    (fuel : nat) (w : World) (name : string) (key : PrivateKey)
    (privateFile : string) (network : config_Network) :
  (∀ w1, (AddToGitIgnore w1 privateFile).2 ≠ None) →
  createAccount AddToGitIgnore WriteFile fuel w name key privateFile network
  = createAccount AddToGitIgnore WriteFile' fuel w name key privateFile network.
Proof.
  intros Hfails. unfold createNetworkAccount.
  destruct (create _ w (Network_Name network)) as [[l w1] [id [err|]]]; [done|].
  destruct (poll fuel w1 id) as [[w2 [result|err]]|]; [|done..].
  destruct (GetCreatedAddresses result) as [|address addresses]; [done|].
  specialize (Hfails w2).
  destruct (AddToGitIgnore w2 privateFile) as [w3 [err|]]; done.
Qed.

(** X16: an account that [createNetworkAccount] returns has the given name,
    the first address the creation transaction created, and a key that
    refers to the key file by its path, with index 0: the private key itself
    is not part of the account; and the key file was written with the
    private key and the mode 0644, after .gitignore was updated. *)
Theorem createNetworkAccount_success
    (AddToGitIgnore : World → string → World * option ExternalError)
    (WriteFile : World → string → string → Z → World * option ExternalError)
    (fuel : nat) (w w' : World) (name : string) (key : PrivateKey)
    (privateFile : string) (network : config_Network) (account : Account) :
  createAccount AddToGitIgnore WriteFile fuel w name key privateFile network
  = Some (w', inl account) →
  Account_name account = name
  ∧ Account_key account
    = Some (NewFileAccountKey privateFile 0 ECDSA_P256_String SHA3_256_String)
  ∧ ∃ w1 w2 w3 l id result address addresses,
      create {| PublicKey := strings_TrimPrefix (PublicKey_String key) "0x";
                SignatureAlgorithm := EmptyString; HashAlgorithm := EmptyString;
                Weight := 0 |} w (Network_Name network)
      = (l, w1, (id, None))
      ∧ poll fuel w1 id = Some (w2, inl result)
      ∧ GetCreatedAddresses result = address :: addresses
      ∧ Account_address account = Some address
      ∧ AddToGitIgnore w2 privateFile = (w3, None)
      ∧ WriteFile w3 privateFile (PrivateKey_String key) 420%Z = (w', None).
Proof.
  unfold createNetworkAccount.
  destruct (create _ w (Network_Name network)) as [[l w1] [id [err|]]]; [done|].
  destruct (poll fuel w1 id) as [[w2 [result|err]]|] eqn:Hpoll; [|done..].
  destruct (GetCreatedAddresses result) as [|address addresses] eqn:Haddress; [done|].
  destruct (AddToGitIgnore w2 privateFile) as [w3 [err|]] eqn:Hignore; [done|].
  destruct (WriteFile w3 privateFile (PrivateKey_String key) 420%Z)
    as [w4 [err|]] eqn:Hwrite; [done|].
  intros [= <- <-]. repeat split.
  exists w1, w2, w3, l, id, result, address, addresses. repeat split; done.
Qed.

End CommandProperties.

(** *** The commands on concrete services *)

Lemma get_hex_prefix_witness :
  strings_HasPrefix "07a8b433" "0x" = false
  ∧ SampleCommands.getTransaction 2 ["0x07a8b433"]
    = SampleCommands.getTransaction 2 ["07a8b433"; "extra"].
Proof.
  split; [reflexivity|].
  apply (get_hex_prefix SampleCommands.hexToID SampleCommands.getStatus).
  reflexivity.
Defined.

Lemma poll_first_answer_witness :
  SampleCommands.poll 5 0 "a1b2" = Some (2, inl "result a1b2").
Proof.
  apply (poll_first_answer SampleCommands.getStatus SampleCommands.statusCode
           SampleCommands.NotFound SampleCommands.sleep 2 5 0 2 2 "a1b2"
           (inl ("tx a1b2", "result a1b2"))).
  - reflexivity.
  - reflexivity.
  - discriminate.
  - lia.
Defined.

Lemma poll_never_NotFound_witness :
  SampleCommands.poll 3 0 "ff00" = Some (0, inr (External SampleCommands.Internal))
  ∧ ∃ e, External SampleCommands.Internal = External e
         ∧ SampleCommands.statusCode e ≠ SampleCommands.NotFound.
Proof.
  split; [reflexivity|].
  apply (proj1 (poll_never_NotFound SampleCommands.getStatus SampleCommands.statusCode
                  SampleCommands.NotFound SampleCommands.sleep 3 0 "ff00") 0).
  reflexivity.
Defined.

Lemma create_public_key_and_testnet_witness :
  SampleCommands.create "testnet"
    {| PublicKey := "a1"; SignatureAlgorithm := "ECDSA_secp256k1";
       HashAlgorithm := "SHA2_256"; Weight := 1 |} 0 "mainnet"
  = SampleCommands.create "testnet"
      {| PublicKey := "a1"; SignatureAlgorithm := EmptyString;
         HashAlgorithm := EmptyString; Weight := 0 |} 0 "emulator".
Proof.
  apply create_public_key_and_testnet.
  - reflexivity.
  - split; discriminate.
Defined.

Lemma create_defaults_and_EmptyID_witness :
  (SampleCommands.createUnparsed
     {| PublicKey := "a1"; SignatureAlgorithm := EmptyString;
        HashAlgorithm := EmptyString; Weight := 0 |} 0 "testnet").2.2 ≠ None
  ∧ (SampleCommands.createUnparsed
       {| PublicKey := "a1"; SignatureAlgorithm := EmptyString;
          HashAlgorithm := EmptyString; Weight := 0 |} 0 "testnet").2.1
    = EmptyString.
Proof.
  split; [discriminate|].
  apply create_defaults_and_EmptyID. discriminate.
Defined.

Lemma createNetworkAccount_no_address_no_files_witness :
  SampleCommands.createAccount SampleCommands.noAddresses
    SampleCommands.addToGitIgnore SampleCommands.writeFile
    5 0 "alice" "c0ffee" "alice.pkey" SampleCommands.testnet
  = SampleCommands.createAccount SampleCommands.noAddresses
      SampleCommands.gitIgnoreFails SampleCommands.writeFileFails
      5 0 "alice" "c0ffee" "alice.pkey" SampleCommands.testnet.
Proof.
  apply createNetworkAccount_no_address_no_files.
  intros l w1 id w2 result _ _. reflexivity.
Defined.

Lemma createNetworkAccount_gitignore_first_witness :
  SampleCommands.createAccount SampleCommands.createdAddresses
    SampleCommands.gitIgnoreFails SampleCommands.writeFile
    5 0 "alice" "c0ffee" "alice.pkey" SampleCommands.testnet
  = SampleCommands.createAccount SampleCommands.createdAddresses
      SampleCommands.gitIgnoreFails SampleCommands.writeFileFails
      5 0 "alice" "c0ffee" "alice.pkey" SampleCommands.testnet.
Proof.
  apply createNetworkAccount_gitignore_first.
  intros w1. simpl. discriminate.
Defined.

Lemma createNetworkAccount_success_witness :
  let account :=
    {| Account_name := "alice"; Account_address := Some "f8d6e0586b0a20c7";
       Account_key := Some (NewFileAccountKey "alice.pkey" 0 "ECDSA_P256" "SHA3_256") |} in
  SampleCommands.createAccount SampleCommands.createdAddresses
    SampleCommands.addToGitIgnore SampleCommands.writeFile
    5 0 "alice" "c0ffee" "alice.pkey" SampleCommands.testnet
  = Some (2, inl account)
  ∧ Account_name account = "alice"
  ∧ Account_key account
    = Some (NewFileAccountKey "alice.pkey" 0 "ECDSA_P256" "SHA3_256").
Proof.
  intros account.
  assert (SampleCommands.createAccount SampleCommands.createdAddresses
            SampleCommands.addToGitIgnore SampleCommands.writeFile
            5 0 "alice" "c0ffee" "alice.pkey" SampleCommands.testnet
          = Some (2, inl account)) as Hrun by reflexivity.
  split; [exact Hrun|].
  destruct (createNetworkAccount_success _ _ _ _ _ _ _ _ _ _ _ _ _ _ _ _ _ _ _ _ _ _ _
              _ _ _ _ _ _ _ _ Hrun) as (Hname & Hkey & _).
  split; [exact Hname | exact Hkey].
Defined.
